(** * Movie-MMsub: the application state model of the catalog browser

    A shallow embedding of the two scripts of the repository:
    - [script.js], the first version, where a movie's id is whatever the
      JSON document stores and a missing selection is signalled by
      shaking the favorite button;
    - the later script (its header: "'id' is now dynamically generated"),
      which adds [generateVideoIds] and the custom alert modal.

    A function that reads the same in both scripts is embedded once; where
    the two differ, the embedding branches on [script : Script].

    The scripts' globals, [localStorage] and the parts of the page that
    the scripts read back make up [State].  Handlers run in a state and
    exception monad, so that [try]/[catch] and the updates made before a
    throw are as in the source.  [JSON.parse] and [JSON.stringify] are
    parameters.  Elements the scripts fetch by id are taken to be on the
    page; the two buttons they fetch with a selector may be missing.
    Styling (class lists, texts, the theme) is left out. *)

From Stdlib Require Import String Ascii List ZArith Lia.
From Stdlib Require Import Decimal DecimalNat DecimalString.
From stdpp Require Import base option list strings pretty gmap.

Local Open Scope string_scope.
Local Open Scope list_scope.

#[local] Set Warnings "-register-all".

(** ** Values *)

(** What [JSON.parse] can produce, plus [undefined]. *)
Inductive jsval : Type :=
  | JUndefined
  | JNull
  | JBool (b : bool)
  | JNum (n : Z)
  | JStr (s : string)
  | JArr (elems : list jsval)
  | JObj (fields : list (string * jsval)).

(** [a === b].  Primitives compare by value, arrays and objects by
    reference.  Wherever the scripts compare, one side is a movie's id (a
    string, or [undefined] when the property is missing) or an id handed
    over by the page, so an array or an object never compares equal. *)
Definition strict_eq (a b : jsval) : bool :=
  match a, b with
  | JUndefined, JUndefined => true
  | JNull, JNull => true
  | JBool x, JBool y => bool_decide (x = y)
  | JNum x, JNum y => bool_decide (x = y)
  | JStr x, JStr y => bool_decide (x = y)
  | _, _ => false
  end.

Definition primitive (v : jsval) : bool :=
  match v with JArr _ | JObj _ => false | _ => true end.

(** [Array.isArray]. *)
Definition isArray (v : jsval) : bool :=
  match v with JArr _ => true | _ => false end.

(** [favorites = v; if (!Array.isArray(favorites)) favorites = [];]. *)
Definition array_or_empty (v : jsval) : list jsval :=
  match v with JArr elems => elems | _ => [] end.

(** Truthiness of a string. *)
Definition truthy_text (s : string) : bool := negb (bool_decide (s = "")).

(** ** Movies and the catalog *)

(** A movie object.  [movie_id] is [None] while the object has no [id]
    property (reading it gives [undefined]); an id that is there is a
    string. *)
Record Movie : Type := mkMovie {
  movie_id : option string;
  movie_title : string;
  movie_thumb : string;
  movie_src : string;
  movie_type : option string
}.

Global Instance Movie_eq_dec : EqDecision Movie.
Proof. solve_decision. Defined.

(** The value of [movie.id]. *)
Definition id_of (m : Movie) : jsval :=
  match movie_id m with
  | Some s => JStr s
  | None => JUndefined
  end.

(** [movie.id = s]. *)
Definition set_id (m : Movie) (s : string) : Movie :=
  {| movie_id := Some s;
     movie_title := movie_title m;
     movie_thumb := movie_thumb m;
     movie_src := movie_src m;
     movie_type := movie_type m |}.

(** The [videos] object: its keys in [for ... in] order, each with its
    array of movies. *)
Abbreviation Catalog := (list (string * list Movie)).

(** Template-literal rendering of an array index. *)
Definition string_of_index (index : nat) : string :=
  NilEmpty.string_of_uint (Nat.to_uint index).

(** [`${category}-${index}`]. *)
Definition video_id (category : string) (index : nat) : string :=
  category +:+ "-" +:+ string_of_index index.

(** Whether a text has a dash in it (the rendering of an index has
    none). *)
Fixpoint has_dash (s : string) : bool :=
  match s with
  | EmptyString => false
  | String a rest => bool_decide (a = "-"%char) || has_dash rest
  end.

(** [generateVideoIds]: the guard [Array.isArray(videos[category])] holds
    for every entry of a [Catalog]; [forEach((movie, index) => ...)] is
    [imap]. *)
Definition generateVideoIds (videos : Catalog) : Catalog :=
  (λ entry : string * list Movie,
     (entry.1,
      imap (λ index movie, set_id movie (video_id entry.1 index)) entry.2))
  <$> videos.

(** Every movie of the catalog, category after category. *)
Definition catalog_movies (videos : Catalog) : list Movie :=
  mjoin (snd <$> videos).

(** [findMovieById]: [Array.prototype.find] per category, first hit wins. *)
Fixpoint findMovieById (videos : Catalog) (id : jsval) : option Movie :=
  match videos with
  | [] => None
  | (_, ms) :: rest =>
      match List.find (λ m, strict_eq (id_of m) id) ms with
      | Some movie => Some movie
      | None => findMovieById rest id
      end
  end.


(** ** More of JavaScript's value semantics *)

(** Truthiness, as tested by [||], [if] and [?:]. *)
Definition truthy (v : jsval) : bool :=
  match v with
  | JUndefined | JNull => false
  | JBool b => b
  | JNum n => negb (bool_decide (n = 0%Z))
  | JStr s => negb (bool_decide (s = ""))
  | JArr _ | JObj _ => true
  end.

(** [a || b]. *)
Definition js_or (a b : jsval) : jsval := if truthy a then a else b.

(** Reading a property of [undefined] or [null] throws a [TypeError]. *)
Definition nullish (v : jsval) : bool :=
  match v with JUndefined | JNull => true | _ => false end.

(** [String(v)], which is also how a value becomes a property key.  An
    array joins its elements with commas, [null] and [undefined] elements
    giving the empty string. *)
Fixpoint to_string (v : jsval) : string :=
  match v with
  | JUndefined => "undefined"
  | JNull => "null"
  | JBool true => "true"
  | JBool false => "false"
  | JNum n => pretty n
  | JStr s => s
  | JArr elems =>
      (fix join (l : list jsval) : string :=
         match l with
         | [] => ""
         | x :: rest =>
             (if nullish x then "" else to_string x) +:+
             match rest with [] => "" | _ :: _ => "," +:+ join rest end
         end) elems
  | JObj _ => "[object Object]"
  end.

(** [obj[key]] on an object held as a map: a missing property reads as
    [undefined].  The map holds the object's own properties; what the
    object inherits from [Object.prototype] is not in it, so the model
    follows the code for every key that is not the name of a member of
    [Object.prototype] (see [object_prototype_member]). *)
Definition get_prop (obj : gmap string jsval) (key : jsval) : jsval :=
  default JUndefined (obj !! to_string key).

(** The names every plain object answers to without having them as own
    properties: the members of [Object.prototype] in a browser. *)
Definition object_prototype_member (name : string) : bool :=
  bool_decide
    (name ∈ [ "constructor"; "hasOwnProperty"; "isPrototypeOf";
              "propertyIsEnumerable"; "toLocaleString"; "toString";
              "valueOf"; "__proto__"; "__defineGetter__";
              "__defineSetter__"; "__lookupGetter__"; "__lookupSetter__" ]).

Fixpoint chars (s : string) : list jsval :=
  match s with
  | EmptyString => []
  | String a rest => JStr (String a EmptyString) :: chars rest
  end.

(** The own enumerable properties that [{...v}] copies: those of an
    object, the indexed elements of an array or of a string, and nothing
    for the other primitives. *)
Definition own_props (v : jsval) : gmap string jsval :=
  match v with
  | JObj fields => list_to_map (reverse fields)
  | JArr elems => list_to_map (imap (λ i x, (string_of_index i, x)) elems)
  | JStr s => list_to_map (imap (λ i x, (string_of_index i, x)) (chars s))
  | _ => ∅
  end.

(** [{...a, ...b}]: the later spread wins. *)
Definition spread2 (a b : gmap string jsval) : gmap string jsval := b ∪ a.

(** [Array.prototype.includes] (no [NaN] can occur, so SameValueZero is
    [===]). *)
Definition includes (l : list jsval) (v : jsval) : bool :=
  existsb (λ x, strict_eq x v) l.

(** [Array.prototype.indexOf]: [None] stands for [-1]. *)
Fixpoint indexOf (l : list jsval) (v : jsval) : option nat :=
  match l with
  | [] => None
  | x :: rest => if strict_eq x v then Some 0 else S <$> indexOf rest v
  end.

(** [l.splice(index, 1)], for an index inside the array. *)
Definition splice1 (l : list jsval) (index : nat) : list jsval :=
  delete index l.

(** [l.push(v)]. *)
Definition push (l : list jsval) (v : jsval) : list jsval := (l ++ [v])%list.

(** [l.slice(start)] for any integer [start]: a negative one counts from
    the end, clamped at the front. *)
Definition slice {A} (l : list A) (start : Z) : list A :=
  let len := Z.of_nat (length l) in
  let k := if (start <? 0)%Z then Z.max (len + start) 0 else Z.min start len in
  drop (Z.to_nat k) l.

(** [videos[category] || []], for a category that is a key of the catalog
    or is not the name of a member of [Object.prototype] (for such a
    name, when it is no key, the code reads the inherited member instead
    of taking the empty array). *)
Fixpoint category_videos (videos : Catalog) (category : string) : list Movie :=
  match videos with
  | [] => []
  | (key, ms) :: rest =>
      if bool_decide (key = category) then ms
      else category_videos rest category
  end.

(** ** The page *)

Inductive Nav : Type := NavHome | NavTrending | NavFavorites | NavProfile.

Global Instance Nav_eq_dec : EqDecision Nav.
Proof. solve_decision. Defined.

(** A movie card as [createMovieCard] builds it: the movie it shows and
    whether the heart badge is drawn. *)
Record Card : Type := mkCard {
  card_movie : Movie;
  card_isFav : bool
}.

(** What [#movies] holds.  Each list is the cards appended after the
    header; in a category or the trending view an empty list means the
    "no content" paragraph, in the favorites view [noFavorites] tells
    whether the "no favorites" paragraph is there. *)
Inductive Region : Type :=
  | RCleared
  | RCategory (category : string) (cards : list Card)
  | RTrending (cards : list Card)
  | RFavorites (noFavorites : bool) (cards : list Card)
  | RProfile.

Inductive PlayerKind : Type := Html5Video | Iframe.

Record Playback : Type := mkPlayback {
  player_kind : PlayerKind;
  player_src : string
}.

Inductive AlertTitle : Type :=
  | TitleError
  | TitleFavorite
  | TitleSaveSettings.  (* [translations[language].saveSettings] *)

Inductive AlertMessage : Type :=
  | MsgDataUnavailable          (* JSON could not be read *)
  | MsgSettingsSaved
  | MsgSettingsNotSaved
  | MsgSelectMovieForFavorite   (* [t.selectMovieForFavorite] *)
  | MsgFavoriteRemoved (title : string)
  | MsgFavoriteAdded (title : string)
  | MsgMovieNotFound.

Record Alert : Type := mkAlert {
  alert_title : AlertTitle;
  alert_message : AlertMessage
}.

Inductive ConsoleError : Type :=
  | ErrLoadFailed
  | ErrSettingsParse
  | ErrFavoritesParse
  | ErrSettingsSave
  | ErrFavoritesSave
  | ErrMovieNotFound (movieId : jsval).

(** ** Exceptions *)

Inductive Exn : Type :=
  | SyntaxError          (* [JSON.parse] *)
  | QuotaExceededError   (* [localStorage.setItem] *)
  | TypeError.           (* property read on [undefined] or [null] *)

Inductive Result (A : Type) : Type :=
  | Return (a : A)
  | Throw (e : Exn).
Arguments Return {A} a.
Arguments Throw {A} e.

(** ** Application state

    The script's globals, durable storage, and the part of the page the
    script reads back or that the properties below talk about. *)
Record State : Type := mkState {
  videos : Catalog;
  translations : gmap string jsval;
  favorites : list jsval;
  currentPlayingMovie : option Movie;
  currentSettings : gmap string jsval;
  localStorage : gmap string string;
  storageWritable : bool;
  generatedIds : nat;
  homeBtn : bool;
  actionBtn : bool;
  activeNav : option Nav;
  activeCategory : option string;
  menuBarHidden : bool;
  playerHidden : bool;
  moviesContainer : Region;
  favoriteBtn : option bool;
  favoriteBtnShake : bool;
  playing : option Playback;
  alertModal : option Alert;
  consoleErrors : list ConsoleError
}.

(** Field by field:
    - [videos]: the [videos] global;
    - [translations]: the [translations] global: language code to table;
    - [favorites]: the [favorites] global;
    - [currentPlayingMovie]: [null] is [None];
    - [currentSettings]: the [currentSettings] object, property by property;
    - [localStorage]: durable storage;
    - [storageWritable]: whether the next [localStorage.setItem] succeeds (quota, private mode);
    - [generatedIds]: ghost: how many times [generateVideoIds] has run;
    - [homeBtn]: the markup has [.nav-btn[data-nav=home]];
    - [actionBtn]: the markup has [.menu-btn[data-category=action]];
    - [activeNav]: the [.nav-btn] carrying [text-primary];
    - [activeCategory]: [data-category] of the [.menu-btn] carrying [active-category];
    - [menuBarHidden]: [#menu-bar] has class [hidden];
    - [playerHidden]: [#player-container] has class [hidden];
    - [moviesContainer]: content of [#movies];
    - [favoriteBtn]: [#favorite-btn]: heart drawn filled ([None]: as shipped in the markup);
    - [favoriteBtnShake]: [#favorite-btn] carries [shake-error];
    - [playing]: what the player element shows;
    - [alertModal]: the custom alert modal, if shown;
    - [consoleErrors]: [console.error] calls, oldest first. *)

(** Field updates. *)
Definition set_videos (x : Catalog) (st : State) : State :=
  {| videos := x; translations := translations st;
     favorites := favorites st;
     currentPlayingMovie := currentPlayingMovie st;
     currentSettings := currentSettings st;
     localStorage := localStorage st;
     storageWritable := storageWritable st;
     generatedIds := generatedIds st; homeBtn := homeBtn st;
     actionBtn := actionBtn st; activeNav := activeNav st;
     activeCategory := activeCategory st;
     menuBarHidden := menuBarHidden st; playerHidden := playerHidden st;
     moviesContainer := moviesContainer st;
     favoriteBtn := favoriteBtn st;
     favoriteBtnShake := favoriteBtnShake st; playing := playing st;
     alertModal := alertModal st; consoleErrors := consoleErrors st |}.

Definition set_translations (x : gmap string jsval) (st : State) : State :=
  {| videos := videos st; translations := x; favorites := favorites st;
     currentPlayingMovie := currentPlayingMovie st;
     currentSettings := currentSettings st;
     localStorage := localStorage st;
     storageWritable := storageWritable st;
     generatedIds := generatedIds st; homeBtn := homeBtn st;
     actionBtn := actionBtn st; activeNav := activeNav st;
     activeCategory := activeCategory st;
     menuBarHidden := menuBarHidden st; playerHidden := playerHidden st;
     moviesContainer := moviesContainer st;
     favoriteBtn := favoriteBtn st;
     favoriteBtnShake := favoriteBtnShake st; playing := playing st;
     alertModal := alertModal st; consoleErrors := consoleErrors st |}.

Definition set_favorites (x : list jsval) (st : State) : State :=
  {| videos := videos st; translations := translations st;
     favorites := x; currentPlayingMovie := currentPlayingMovie st;
     currentSettings := currentSettings st;
     localStorage := localStorage st;
     storageWritable := storageWritable st;
     generatedIds := generatedIds st; homeBtn := homeBtn st;
     actionBtn := actionBtn st; activeNav := activeNav st;
     activeCategory := activeCategory st;
     menuBarHidden := menuBarHidden st; playerHidden := playerHidden st;
     moviesContainer := moviesContainer st;
     favoriteBtn := favoriteBtn st;
     favoriteBtnShake := favoriteBtnShake st; playing := playing st;
     alertModal := alertModal st; consoleErrors := consoleErrors st |}.

Definition set_currentPlayingMovie (x : option Movie) (st : State) : State :=
  {| videos := videos st; translations := translations st;
     favorites := favorites st; currentPlayingMovie := x;
     currentSettings := currentSettings st;
     localStorage := localStorage st;
     storageWritable := storageWritable st;
     generatedIds := generatedIds st; homeBtn := homeBtn st;
     actionBtn := actionBtn st; activeNav := activeNav st;
     activeCategory := activeCategory st;
     menuBarHidden := menuBarHidden st; playerHidden := playerHidden st;
     moviesContainer := moviesContainer st;
     favoriteBtn := favoriteBtn st;
     favoriteBtnShake := favoriteBtnShake st; playing := playing st;
     alertModal := alertModal st; consoleErrors := consoleErrors st |}.

Definition set_currentSettings (x : gmap string jsval) (st : State) : State :=
  {| videos := videos st; translations := translations st;
     favorites := favorites st;
     currentPlayingMovie := currentPlayingMovie st;
     currentSettings := x; localStorage := localStorage st;
     storageWritable := storageWritable st;
     generatedIds := generatedIds st; homeBtn := homeBtn st;
     actionBtn := actionBtn st; activeNav := activeNav st;
     activeCategory := activeCategory st;
     menuBarHidden := menuBarHidden st; playerHidden := playerHidden st;
     moviesContainer := moviesContainer st;
     favoriteBtn := favoriteBtn st;
     favoriteBtnShake := favoriteBtnShake st; playing := playing st;
     alertModal := alertModal st; consoleErrors := consoleErrors st |}.

Definition set_localStorage (x : gmap string string) (st : State) : State :=
  {| videos := videos st; translations := translations st;
     favorites := favorites st;
     currentPlayingMovie := currentPlayingMovie st;
     currentSettings := currentSettings st; localStorage := x;
     storageWritable := storageWritable st;
     generatedIds := generatedIds st; homeBtn := homeBtn st;
     actionBtn := actionBtn st; activeNav := activeNav st;
     activeCategory := activeCategory st;
     menuBarHidden := menuBarHidden st; playerHidden := playerHidden st;
     moviesContainer := moviesContainer st;
     favoriteBtn := favoriteBtn st;
     favoriteBtnShake := favoriteBtnShake st; playing := playing st;
     alertModal := alertModal st; consoleErrors := consoleErrors st |}.

Definition set_generatedIds (x : nat) (st : State) : State :=
  {| videos := videos st; translations := translations st;
     favorites := favorites st;
     currentPlayingMovie := currentPlayingMovie st;
     currentSettings := currentSettings st;
     localStorage := localStorage st;
     storageWritable := storageWritable st; generatedIds := x;
     homeBtn := homeBtn st; actionBtn := actionBtn st;
     activeNav := activeNav st; activeCategory := activeCategory st;
     menuBarHidden := menuBarHidden st; playerHidden := playerHidden st;
     moviesContainer := moviesContainer st;
     favoriteBtn := favoriteBtn st;
     favoriteBtnShake := favoriteBtnShake st; playing := playing st;
     alertModal := alertModal st; consoleErrors := consoleErrors st |}.

Definition set_activeNav (x : option Nav) (st : State) : State :=
  {| videos := videos st; translations := translations st;
     favorites := favorites st;
     currentPlayingMovie := currentPlayingMovie st;
     currentSettings := currentSettings st;
     localStorage := localStorage st;
     storageWritable := storageWritable st;
     generatedIds := generatedIds st; homeBtn := homeBtn st;
     actionBtn := actionBtn st; activeNav := x;
     activeCategory := activeCategory st;
     menuBarHidden := menuBarHidden st; playerHidden := playerHidden st;
     moviesContainer := moviesContainer st;
     favoriteBtn := favoriteBtn st;
     favoriteBtnShake := favoriteBtnShake st; playing := playing st;
     alertModal := alertModal st; consoleErrors := consoleErrors st |}.

Definition set_activeCategory (x : option string) (st : State) : State :=
  {| videos := videos st; translations := translations st;
     favorites := favorites st;
     currentPlayingMovie := currentPlayingMovie st;
     currentSettings := currentSettings st;
     localStorage := localStorage st;
     storageWritable := storageWritable st;
     generatedIds := generatedIds st; homeBtn := homeBtn st;
     actionBtn := actionBtn st; activeNav := activeNav st;
     activeCategory := x; menuBarHidden := menuBarHidden st;
     playerHidden := playerHidden st;
     moviesContainer := moviesContainer st;
     favoriteBtn := favoriteBtn st;
     favoriteBtnShake := favoriteBtnShake st; playing := playing st;
     alertModal := alertModal st; consoleErrors := consoleErrors st |}.

Definition set_menuBarHidden (x : bool) (st : State) : State :=
  {| videos := videos st; translations := translations st;
     favorites := favorites st;
     currentPlayingMovie := currentPlayingMovie st;
     currentSettings := currentSettings st;
     localStorage := localStorage st;
     storageWritable := storageWritable st;
     generatedIds := generatedIds st; homeBtn := homeBtn st;
     actionBtn := actionBtn st; activeNav := activeNav st;
     activeCategory := activeCategory st; menuBarHidden := x;
     playerHidden := playerHidden st;
     moviesContainer := moviesContainer st;
     favoriteBtn := favoriteBtn st;
     favoriteBtnShake := favoriteBtnShake st; playing := playing st;
     alertModal := alertModal st; consoleErrors := consoleErrors st |}.

Definition set_playerHidden (x : bool) (st : State) : State :=
  {| videos := videos st; translations := translations st;
     favorites := favorites st;
     currentPlayingMovie := currentPlayingMovie st;
     currentSettings := currentSettings st;
     localStorage := localStorage st;
     storageWritable := storageWritable st;
     generatedIds := generatedIds st; homeBtn := homeBtn st;
     actionBtn := actionBtn st; activeNav := activeNav st;
     activeCategory := activeCategory st;
     menuBarHidden := menuBarHidden st; playerHidden := x;
     moviesContainer := moviesContainer st;
     favoriteBtn := favoriteBtn st;
     favoriteBtnShake := favoriteBtnShake st; playing := playing st;
     alertModal := alertModal st; consoleErrors := consoleErrors st |}.

Definition set_moviesContainer (x : Region) (st : State) : State :=
  {| videos := videos st; translations := translations st;
     favorites := favorites st;
     currentPlayingMovie := currentPlayingMovie st;
     currentSettings := currentSettings st;
     localStorage := localStorage st;
     storageWritable := storageWritable st;
     generatedIds := generatedIds st; homeBtn := homeBtn st;
     actionBtn := actionBtn st; activeNav := activeNav st;
     activeCategory := activeCategory st;
     menuBarHidden := menuBarHidden st; playerHidden := playerHidden st;
     moviesContainer := x; favoriteBtn := favoriteBtn st;
     favoriteBtnShake := favoriteBtnShake st; playing := playing st;
     alertModal := alertModal st; consoleErrors := consoleErrors st |}.

Definition set_favoriteBtn (x : option bool) (st : State) : State :=
  {| videos := videos st; translations := translations st;
     favorites := favorites st;
     currentPlayingMovie := currentPlayingMovie st;
     currentSettings := currentSettings st;
     localStorage := localStorage st;
     storageWritable := storageWritable st;
     generatedIds := generatedIds st; homeBtn := homeBtn st;
     actionBtn := actionBtn st; activeNav := activeNav st;
     activeCategory := activeCategory st;
     menuBarHidden := menuBarHidden st; playerHidden := playerHidden st;
     moviesContainer := moviesContainer st; favoriteBtn := x;
     favoriteBtnShake := favoriteBtnShake st; playing := playing st;
     alertModal := alertModal st; consoleErrors := consoleErrors st |}.

Definition set_favoriteBtnShake (x : bool) (st : State) : State :=
  {| videos := videos st; translations := translations st;
     favorites := favorites st;
     currentPlayingMovie := currentPlayingMovie st;
     currentSettings := currentSettings st;
     localStorage := localStorage st;
     storageWritable := storageWritable st;
     generatedIds := generatedIds st; homeBtn := homeBtn st;
     actionBtn := actionBtn st; activeNav := activeNav st;
     activeCategory := activeCategory st;
     menuBarHidden := menuBarHidden st; playerHidden := playerHidden st;
     moviesContainer := moviesContainer st;
     favoriteBtn := favoriteBtn st; favoriteBtnShake := x;
     playing := playing st; alertModal := alertModal st;
     consoleErrors := consoleErrors st |}.

Definition set_playing (x : option Playback) (st : State) : State :=
  {| videos := videos st; translations := translations st;
     favorites := favorites st;
     currentPlayingMovie := currentPlayingMovie st;
     currentSettings := currentSettings st;
     localStorage := localStorage st;
     storageWritable := storageWritable st;
     generatedIds := generatedIds st; homeBtn := homeBtn st;
     actionBtn := actionBtn st; activeNav := activeNav st;
     activeCategory := activeCategory st;
     menuBarHidden := menuBarHidden st; playerHidden := playerHidden st;
     moviesContainer := moviesContainer st;
     favoriteBtn := favoriteBtn st;
     favoriteBtnShake := favoriteBtnShake st; playing := x;
     alertModal := alertModal st; consoleErrors := consoleErrors st |}.

Definition set_alertModal (x : option Alert) (st : State) : State :=
  {| videos := videos st; translations := translations st;
     favorites := favorites st;
     currentPlayingMovie := currentPlayingMovie st;
     currentSettings := currentSettings st;
     localStorage := localStorage st;
     storageWritable := storageWritable st;
     generatedIds := generatedIds st; homeBtn := homeBtn st;
     actionBtn := actionBtn st; activeNav := activeNav st;
     activeCategory := activeCategory st;
     menuBarHidden := menuBarHidden st; playerHidden := playerHidden st;
     moviesContainer := moviesContainer st;
     favoriteBtn := favoriteBtn st;
     favoriteBtnShake := favoriteBtnShake st; playing := playing st;
     alertModal := x; consoleErrors := consoleErrors st |}.

Definition set_consoleErrors (x : list ConsoleError) (st : State) : State :=
  {| videos := videos st; translations := translations st;
     favorites := favorites st;
     currentPlayingMovie := currentPlayingMovie st;
     currentSettings := currentSettings st;
     localStorage := localStorage st;
     storageWritable := storageWritable st;
     generatedIds := generatedIds st; homeBtn := homeBtn st;
     actionBtn := actionBtn st; activeNav := activeNav st;
     activeCategory := activeCategory st;
     menuBarHidden := menuBarHidden st; playerHidden := playerHidden st;
     moviesContainer := moviesContainer st;
     favoriteBtn := favoriteBtn st;
     favoriteBtnShake := favoriteBtnShake st; playing := playing st;
     alertModal := alertModal st; consoleErrors := x |}.

(** ** State and exceptions together

    A computation runs from a state to a result and the state it leaves;
    an exception keeps the updates made before it was thrown. *)
Definition M (A : Type) : Type := State → Result A * State.

Global Instance M_ret : MRet M := λ A a st, (Return a, st).

Global Instance M_bind : MBind M := λ A B k m st,
  match m st with
  | (Return a, st') => k a st'
  | (Throw e, st') => (Throw e, st')
  end.

Definition throw {A} (e : Exn) : M A := λ st, (Throw e, st).

(** [try { body } catch (e) { handler }]. *)
Definition try_catch {A} (body : M A) (handler : Exn → M A) : M A := λ st,
  match body st with
  | (Return a, st') => (Return a, st')
  | (Throw e, st') => handler e st'
  end.

Definition gets {A} (f : State → A) : M A := λ st, (Return (f st), st).

Definition modify (f : State → State) : M unit := λ st, (Return tt, f st).

Definition when (b : bool) (m : M unit) : M unit := if b then m else mret tt.

(** The state a computation leaves, whether it returned or threw. *)
Definition exec {A} (m : M A) (st : State) : State := (m st).2.

Definition outcome {A} (m : M A) (st : State) : Result A := (m st).1.

(** ** Built-ins with effects *)

(** [localStorage.getItem(key)]. *)
Definition getItem (key : string) : M (option string) :=
  gets (λ st, localStorage st !! key).

(** [localStorage.setItem(key, value)]. *)
Definition setItem (key value : string) : M unit := λ st,
  if storageWritable st
  then (Return tt, set_localStorage (<[key := value]> (localStorage st)) st)
  else (Throw QuotaExceededError, st).

Definition console_error (e : ConsoleError) : M unit :=
  modify (λ st, set_consoleErrors (consoleErrors st ++ [e])%list st).

(** [showCustomAlert(title, message)]. *)
Definition showCustomAlert (title : AlertTitle) (message : AlertMessage)
  : M unit :=
  modify (set_alertModal (Some (mkAlert title message))).

(** [closeCustomAlert()]. *)
Definition closeCustomAlert : M unit := modify (set_alertModal None).

(** ** Pure parts of the rendering *)

(** [translations[language] || translations.english], on the tables'
    own properties (see [get_prop]). *)
Definition table_for (translations : gmap string jsval) (language : jsval)
  : jsval :=
  js_or (get_prop translations language)
        (get_prop translations (JStr "english")).

(** [createMovieCard(movie)]; its read of [t.nowPlaying] comes after the
    caller has already read a property of the same table. *)
Definition createMovieCard (favorites : list jsval) (movie : Movie) : Card :=
  {| card_movie := movie; card_isFav := includes favorites (id_of movie) |}.

(** The loop of [displayTrending]: [allMovies = allMovies.concat(...)]. *)
Definition allMovies (videos : Catalog) : list Movie :=
  foldl (λ acc entry, (acc ++ entry.2)%list) [] videos.

(** [allMovies.slice(-10)]. *)
Definition trendingMovies (videos : Catalog) : list Movie :=
  slice (allMovies videos) (-10).

(** The [forEach] of [displayFavorites]: a card for each favorite that
    [findMovieById] resolves, nothing for the others. *)
Fixpoint favoriteCards (videos : Catalog) (favorites todo : list jsval)
  : list Card :=
  match todo with
  | [] => []
  | movieId :: rest =>
      match findMovieById videos movieId with
      | Some movie =>
          createMovieCard favorites movie :: favoriteCards videos favorites rest
      | None => favoriteCards videos favorites rest
      end
  end.

(** [defaultSettings]. *)
Definition defaultSettings : gmap string jsval :=
  {[ "language" := JStr "myanmar"; "theme" := JStr "dark";
     "name" := JStr ""; "email" := JStr "" ]}.

(** The values of the four controls of the settings form. *)
Record FormValues : Type := mkForm {
  form_name : string;
  form_email : string;
  form_theme : string;
  form_language : string
}.

(** [{ name, email, theme, language }], as a value and as a map. *)
Definition newSettings_fields (form : FormValues) : list (string * jsval) :=
  [ ("name", JStr (form_name form)); ("email", JStr (form_email form));
    ("theme", JStr (form_theme form));
    ("language", JStr (form_language form)) ].

Definition newSettings (form : FormValues) : gmap string jsval :=
  own_props (JObj (newSettings_fields form)).

(** What the one [fetch] of the JSON document gave: a failure (transport
    error, bad status, unparsable body) or the document's [videos] and
    [translations] properties, each possibly missing. *)
Inductive Fetched : Type :=
  | FetchFailed
  | FetchedData (videos : option Catalog)
                (translations : option (gmap string jsval)).

(** Which of the two scripts runs. *)
Inductive Script : Type := Legacy | Dynamic.

(** The cards held by [#movies]. *)
Definition region_cards (r : Region) : list Card :=
  match r with
  | RCategory _ cards | RTrending cards | RFavorites _ cards => cards
  | RCleared | RProfile => []
  end.

(** Whether a property can be read from the table of the language in
    [currentSettings]: the table of that language, or else the English
    one, is there. *)
Definition table_loaded (st : State) : Prop :=
  nullish (table_for (translations st)
             (get_prop (currentSettings st) (JStr "language"))) = false.

(** ** The scripts *)

Section Scripts.

(** [JSON.parse] ([None]: it throws a [SyntaxError]) and
    [JSON.stringify], as the runtime provides them. *)
Variable JSON_parse : string → option jsval.
Variable JSON_stringify : jsval → string.

Variable script : Script.

Definition parse (text : string) : M jsval :=
  match JSON_parse text with
  | Some v => mret v
  | None => throw SyntaxError
  end.

(** A property read on the table [t] of the current language. *)
Definition read_table (language : jsval) : M unit := λ st,
  if nullish (table_for (translations st) language)
  then (Throw TypeError, st)
  else (Return tt, st).

(** [const t = translations[currentSettings.language] || ...; t.key]. *)
Definition read_t : M unit :=
  language ← gets (λ st, get_prop (currentSettings st) (JStr "language"));
  read_table language.

(** [loadDataFromJSON], given what the fetch produced.  On a failure
    both scripts write to the console; the later one then shows the
    alert. *)
Definition loadDataFromJSON (fetched : Fetched) : M unit :=
  match fetched with
  | FetchedData vs ts =>
      modify (set_videos (default [] vs));;
      modify (set_translations (default ∅ ts))
  | FetchFailed =>
      console_error ErrLoadFailed;;
      match script with
      | Legacy => mret tt
      | Dynamic => showCustomAlert TitleError MsgDataUnavailable
      end
  end.

(** [generateVideoIds()] on the global. *)
Definition generateVideoIds_step : M unit :=
  modify (λ st, set_generatedIds (S (generatedIds st))
                  (set_videos (generateVideoIds (videos st)) st)).

(** [updateFavoriteButtonState]: script.js takes an optional explicit
    state and leaves the button alone for a falsy id; the later script
    takes the id only and draws the outline for a falsy one. *)
Definition updateFavoriteButtonState (movieId : jsval)
    (explicitState : option bool) : M unit :=
  match script with
  | Legacy =>
      when (truthy movieId)
        (modify (λ st, set_favoriteBtn
           (Some (default (includes (favorites st) movieId) explicitState))
           st))
  | Dynamic =>
      modify (λ st, set_favoriteBtn
        (Some (if truthy movieId then includes (favorites st) movieId
               else false)) st)
  end.

(** [showCategory(category, clickedButton)]; the button is given by its
    [data-category]. *)
Definition showCategory (category : string) (clickedButton : option string)
  : M unit :=
  modify (set_moviesContainer RCleared);;
  match script with
  | Legacy =>
      modify (λ st, set_currentSettings
                (<["category" := JStr category]> (currentSettings st)) st)
  | Dynamic => mret tt
  end;;
  modify (set_activeCategory clickedButton);;
  read_t;;
  modify (λ st, set_moviesContainer
    (RCategory category
       (createMovieCard (favorites st) <$>
          category_videos (videos st) category)) st).

Definition displayTrending : M unit :=
  modify (set_moviesContainer RCleared);;
  read_t;;
  modify (λ st, set_moviesContainer
    (RTrending (createMovieCard (favorites st) <$>
                  trendingMovies (videos st))) st).

Definition displayFavorites : M unit :=
  modify (set_moviesContainer RCleared);;
  read_t;;
  modify (λ st, set_moviesContainer
    (match favorites st with
     | [] => RFavorites true []
     | _ :: _ =>
         RFavorites false
           (favoriteCards (videos st) (favorites st) (favorites st))
     end) st).

Definition displayProfileSettings : M unit :=
  read_t;;
  modify (set_moviesContainer RProfile).

(** [applyLanguage(language)]. *)
Definition applyLanguage (language : jsval) : M unit :=
  read_table language;;
  match script with
  | Legacy => mret tt
  | Dynamic =>
      selected ← gets currentPlayingMovie;
      updateFavoriteButtonState
        (match selected with Some movie => id_of movie | None => JNull end)
        None
  end.

(** The re-rendering at the end of [applySettings]. *)
Definition rerender_active : M unit :=
  nav ← gets activeNav;
  match nav with
  | None => mret tt
  | Some NavHome =>
      active ← gets activeCategory;
      match active with
      | Some category => showCategory category (Some category)
      | None => mret tt
      end
  | Some NavTrending => displayTrending
  | Some NavFavorites => displayFavorites
  | Some NavProfile => displayProfileSettings
  end.

(** [applySettings()]; the theme classes it toggles are not modelled. *)
Definition applySettings : M unit :=
  language ← gets (λ st, get_prop (currentSettings st) (JStr "language"));
  applyLanguage language;;
  rerender_active.

(** [changeNav(btn)], the button given by its [data-nav], [None] for
    [null]. *)
Definition changeNav (btn : option Nav) : M unit :=
  match btn with
  | None => throw TypeError
  | Some nav =>
      modify (set_activeNav (Some nav));;
      modify (set_moviesContainer RCleared);;
      match nav with
      | NavHome =>
          modify (set_menuBarHidden false);;
          modify (set_playerHidden false);;
          active ← gets activeCategory;
          action ← gets actionBtn;
          match active, action with
          | Some category, _ => showCategory category (Some category)
          | None, true => showCategory "action" (Some "action")
          | None, false => mret tt
          end
      | NavTrending =>
          modify (set_menuBarHidden true);;
          modify (set_playerHidden false);;
          displayTrending
      | NavFavorites =>
          modify (set_menuBarHidden true);;
          modify (set_playerHidden false);;
          displayFavorites
      | NavProfile =>
          modify (set_menuBarHidden true);;
          modify (set_playerHidden true);;
          displayProfileSettings
      end
  end.

(** [document.querySelector('.nav-btn[data-nav="home"]')]. *)
Definition query_homeBtn : M (option Nav) :=
  gets (λ st, if homeBtn st then Some NavHome else None).

(** [findMovieById(id)] on the global. *)
Definition find_movie (id : jsval) : M (option Movie) :=
  gets (λ st, findMovieById (videos st) id).

(** [playVideo(event, movieId)]. *)
Definition playVideo (movieId : jsval) : M unit :=
  found ← find_movie movieId;
  match found with
  | Some movie =>
      modify (set_currentPlayingMovie (Some movie));;
      modify (set_playing (Some
        match script with
        | Legacy =>
            if bool_decide (movie_type movie = Some "iframe")
            then mkPlayback Iframe (movie_src movie)
            else mkPlayback Html5Video (movie_src movie)
        | Dynamic => mkPlayback Iframe (movie_src movie)
        end));;
      read_t;;
      updateFavoriteButtonState (id_of movie) None
  | None =>
      match script with
      | Legacy => console_error (ErrMovieNotFound movieId)
      | Dynamic => showCustomAlert TitleError MsgMovieNotFound
      end
  end.

(** [saveFavoritesToLocalStorage()]. *)
Definition saveFavoritesToLocalStorage : M unit :=
  try_catch
    (favs ← gets favorites;
     setItem "favorites" (JSON_stringify (JArr favs)))
    (λ _, console_error ErrFavoritesSave).

(** The list [toggleFavorite] leaves in [favorites]: script.js tests
    with [includes] and removes with [filter]; the later script looks
    the id up with [indexOf] and removes that one element with
    [splice]. *)
Definition toggled (favs : list jsval) (movieId : jsval) : list jsval :=
  match script with
  | Legacy =>
      if negb (includes favs movieId) then push favs movieId
      else List.filter (λ id, negb (strict_eq id movieId)) favs
  | Dynamic =>
      match indexOf favs movieId with
      | Some index => splice1 favs index
      | None => push favs movieId
      end
  end.

(** [toggleFavorite()]: the value it returns is [undefined] on every
    path. *)
Definition toggleFavorite : M jsval :=
  selected ← gets currentPlayingMovie;
  match selected with
  | None =>
      match script with
      | Legacy => modify (set_favoriteBtnShake true)
      | Dynamic =>
          read_t;;
          showCustomAlert TitleFavorite MsgSelectMovieForFavorite
      end;;
      mret JUndefined
  | Some movie =>
      let movieId := id_of movie in
      favs ← gets favorites;
      let isFavorite := includes favs movieId in
      modify (set_favorites (toggled favs movieId));;
      match script with
      | Legacy => mret tt
      | Dynamic =>
          showCustomAlert TitleFavorite
            (match indexOf favs movieId with
             | Some _ => MsgFavoriteRemoved (movie_title movie)
             | None => MsgFavoriteAdded (movie_title movie)
             end)
      end;;
      saveFavoritesToLocalStorage;;
      match script with
      | Legacy => updateFavoriteButtonState movieId (Some (negb isFavorite))
      | Dynamic => updateFavoriteButtonState movieId None
      end;;
      nav ← gets activeNav;
      when (bool_decide (nav = Some NavFavorites)) displayFavorites;;
      mret JUndefined
  end.

(** [saveSettings()], with the values read from the form. *)
Definition saveSettings (form : FormValues) : M unit :=
  try_catch
    (setItem "userSettings"
       (JSON_stringify (JObj (newSettings_fields form)));;
     modify (λ st, set_currentSettings
               (spread2 (currentSettings st) (newSettings form)) st);;
     applySettings;;
     btn ← query_homeBtn;
     changeNav btn;;
     match script with
     | Legacy => mret tt
     | Dynamic =>
         table ← gets (λ st, get_prop (translations st)
                         (get_prop (currentSettings st) (JStr "language")));
         if nullish table then throw TypeError
         else showCustomAlert TitleSaveSettings MsgSettingsSaved
     end)
    (λ _, match script with
          | Legacy => console_error ErrSettingsSave
          | Dynamic => showCustomAlert TitleError MsgSettingsNotSaved
          end).

(** The two loading blocks of [initializeApp]; [getItem] gives [null]
    ([None]) for a missing key, and [if (stored)] also rejects the
    empty string. *)
Definition loadSettings : M unit :=
  storedSettings ← getItem "userSettings";
  try_catch
    (match storedSettings with
     | Some text =>
         if truthy_text text then
           parsed ← parse text;
           modify (set_currentSettings
                     (spread2 defaultSettings (own_props parsed)))
         else modify (set_currentSettings defaultSettings)
     | None => modify (set_currentSettings defaultSettings)
     end)
    (λ _, match script with
          | Legacy => console_error ErrSettingsParse
          | Dynamic => mret tt
          end;;
          modify (set_currentSettings defaultSettings)).

Definition loadFavorites : M unit :=
  storedFavorites ← getItem "favorites";
  try_catch
    (match storedFavorites with
     | Some text =>
         if truthy_text text then
           parsed ← parse text;
           modify (set_favorites (array_or_empty parsed))
         else modify (set_favorites [])
     | None => modify (set_favorites [])
     end)
    (λ _, match script with
          | Legacy => console_error ErrFavoritesParse
          | Dynamic => mret tt
          end;;
          modify (set_favorites [])).

(** [initializeApp]: in script.js it starts after the data is loaded;
    in the later script it loads the data itself and then runs
    [generateVideoIds] (the user id taken from Firebase in between is not
    part of the state). *)
Definition initializeApp (fetched : Fetched) : M unit :=
  match script with
  | Legacy => mret tt
  | Dynamic => loadDataFromJSON fetched;; generateVideoIds_step
  end;;
  loadSettings;;
  loadFavorites;;
  applySettings;;
  btn ← query_homeBtn;
  match btn with
  | Some _ => changeNav btn
  | None => mret tt
  end.

(** What runs when the page has loaded: script.js's [DOMContentLoaded]
    listener awaits [loadDataFromJSON] and calls [initializeApp]; the
    later script's [initializeApp] is called by the page. *)
Definition startup (fetched : Fetched) : M unit :=
  match script with
  | Legacy => loadDataFromJSON fetched;; initializeApp fetched
  | Dynamic => initializeApp fetched
  end.

End Scripts.

(** ** Sample data *)

(** A movie as the JSON document gives it: a title and no id. *)
Definition raw_movie (title : string) : Movie :=
  {| movie_id := None; movie_title := title; movie_thumb := "";
     movie_src := ""; movie_type := None |}.

(** [{action: [{title: "A"}, {title: "B"}], drama: [{title: "C"}]}]. *)
Definition example_catalog : Catalog :=
  [ ("action", [raw_movie "A"; raw_movie "B"]);
    ("drama", [raw_movie "C"]) ].

(** A table with nothing in it still lets properties be read. *)
Definition example_translations : gmap string jsval :=
  {[ "english" := JObj []; "myanmar" := JObj [] ]}.

(** The globals as the scripts declare them, empty storage that accepts
    writes, and a page with its home and action buttons, nothing
    highlighted yet. *)
Definition initial_state : State :=
  {| videos := []; translations := ∅; favorites := [];
     currentPlayingMovie := None; currentSettings := ∅;
     localStorage := ∅; storageWritable := true; generatedIds := 0;
     homeBtn := true; actionBtn := true; activeNav := None;
     activeCategory := None; menuBarHidden := false;
     playerHidden := false; moviesContainer := RCleared;
     favoriteBtn := None; favoriteBtnShake := false; playing := None;
     alertModal := None; consoleErrors := [] |}.

(** A stand-in for [JSON.parse] that knows three texts. *)
Definition sample_parse (text : string) : option jsval :=
  if bool_decide (text = "[7]") then Some (JArr [JNum 7])
  else if bool_decide (text = "{}") then Some (JObj [])
  else if bool_decide (text = "7") then Some (JNum 7)
  else None.

(** A stand-in for [JSON.stringify]: it only tells arrays from the rest. *)
Definition sample_stringify (v : jsval) : string :=
  match v with
  | JArr [] => "[]"
  | JArr (_ :: _) => "[...]"
  | _ => "{...}"
  end.

(** The first movie of [example_catalog] once ids are assigned. *)
Definition example_movie : Movie := set_id (raw_movie "A") "action-0".

(** The page after the example catalog was loaded and the first movie
    was started, with no favorite yet. *)
Definition example_state : State :=
  set_currentPlayingMovie (Some example_movie)
    (set_currentSettings defaultSettings
       (set_translations example_translations
          (set_videos (generateVideoIds example_catalog) initial_state))).

(** The same page with two stored favorites, the second naming a movie
    the catalog no longer has. *)
Definition example_state_with_favorites : State :=
  set_favorites [JStr "action-0"; JStr "gone-3"] example_state.

(** The same page with storage refusing writes. *)
Definition example_state_storage_full : State :=
  {| videos := videos example_state;
     translations := translations example_state;
     favorites := favorites example_state;
     currentPlayingMovie := currentPlayingMovie example_state;
     currentSettings := currentSettings example_state;
     localStorage := localStorage example_state;
     storageWritable := false;
     generatedIds := generatedIds example_state;
     homeBtn := homeBtn example_state;
     actionBtn := actionBtn example_state;
     activeNav := activeNav example_state;
     activeCategory := activeCategory example_state;
     menuBarHidden := menuBarHidden example_state;
     playerHidden := playerHidden example_state;
     moviesContainer := moviesContainer example_state;
     favoriteBtn := favoriteBtn example_state;
     favoriteBtnShake := favoriteBtnShake example_state;
     playing := playing example_state;
     alertModal := alertModal example_state;
     consoleErrors := consoleErrors example_state |}.

(** The settings form filled in as in the scenario of the specification. *)
Definition example_form : FormValues :=
  {| form_name := ""; form_email := ""; form_theme := "light";
     form_language := "english" |}.

(** ** Notions used to state and prove the properties *)

(** Frames: what a computation leaves alone.

    [preserves f m] says that running [m] does not change the observation
    [f] of the state, whether [m] returns or throws. *)
Definition preserves {A B} (f : State → B) (m : M A) : Prop :=
  ∀ st, f (exec m st) = f st.

(** Invariants.

    [invariant J m]: if [J] holds before [m] it holds in the state [m]
    leaves, whether [m] returns or throws. *)
Definition invariant {A} (J : State → Prop) (m : M A) : Prop :=
  ∀ st, J st → J (exec m st).

(** Computations that return.

    [returns J m]: from a state where [J] holds, [m] returns normally and
    [J] holds again. *)
Definition returns {A} (J : State → Prop) (m : M A) : Prop :=
  ∀ st, J st → ∃ a st', m st = (Return a, st') ∧ J st'.

(** The catalog is [V] and every card shows a movie of [V]. *)
Definition cards_from (V : Catalog) (st : State) : Prop :=
  videos st = V
  ∧ Forall (λ card, card_movie card ∈ catalog_movies V)
           (region_cards (moviesContainer st)).

(** The state in which the later script's [initializeApp] starts loading
    the settings: the document is stored and the ids are assigned. *)
Definition loaded_with_ids (vs : option Catalog)
    (ts : option (gmap string jsval)) (st : State) : State :=
  set_generatedIds (S (generatedIds st))
    (set_videos (generateVideoIds (default [] vs))
       (set_translations (default ∅ ts) (set_videos (default [] vs) st))).

(** The state right after the write and the merge. *)
Definition settings_saved (JSON_stringify : jsval → string)
    (form : FormValues) (st : State) : State :=
  set_currentSettings (spread2 (currentSettings st) (newSettings form))
    (set_localStorage
       (<["userSettings" :=
            JSON_stringify (JObj (newSettings_fields form))]>
          (localStorage st)) st).

(** What [saveSettings] does after the write and the merge. *)
Definition after_saved (script : Script) : M unit :=
  applySettings script;;
  btn ← query_homeBtn;
  changeNav script btn;;
  match script with
  | Legacy => mret tt
  | Dynamic =>
      table ← gets (λ st, get_prop (translations st)
                      (get_prop (currentSettings st) (JStr "language")));
      if nullish table then throw TypeError
      else showCustomAlert TitleSaveSettings MsgSettingsSaved
  end.

(** ** The user id

    The first statements of both scripts:
    [let userId = localStorage.getItem('localUserId') || crypto.randomUUID();]
    [if (localStorage.getItem('localUserId') === null)]
    [  localStorage.setItem('localUserId', userId);]
    [uuid] is what [crypto.randomUUID()] gives if it is called; the
    result is the value of [userId]. *)
Definition initUserId (uuid : string) : M string :=
  stored ← getItem "localUserId";
  let userId :=
    match stored with
    | Some text => if truthy_text text then text else uuid
    | None => uuid
    end in
  again ← getItem "localUserId";
  match again with
  | None => setItem "localUserId" userId;; mret userId
  | Some _ => mret userId
  end.

(** ** The page's events

    What the page can ask of a script once it is loaded: the handlers the
    scripts put on [window] for the markup's [onclick] and [onsubmit]
    attributes.  A nav button passes itself, a card passes its movie's
    id as a string. *)
Inductive Command : Type :=
  | CmdChangeNav (nav : Nav)
  | CmdShowCategory (category : string) (clickedButton : option string)
  | CmdPlayVideo (movieId : string)
  | CmdToggleFavorite
  | CmdSaveSettings (form : FormValues)
  | CmdCloseAlert.

Definition handle (JSON_stringify : jsval → string) (script : Script)
    (cmd : Command) : M unit :=
  match cmd with
  | CmdChangeNav nav => changeNav script (Some nav)
  | CmdShowCategory category clickedButton =>
      showCategory script category clickedButton
  | CmdPlayVideo movieId => playVideo script (JStr movieId)
  | CmdToggleFavorite => toggleFavorite JSON_stringify script;; mret tt
  | CmdSaveSettings form => saveSettings JSON_stringify script form
  | CmdCloseAlert =>
      match script with
      | Legacy => mret tt
      | Dynamic => closeCustomAlert
      end
  end.

(** One event after the other; an exception that escapes a handler ends
    that handler and leaves the state as it was at the throw. *)
Fixpoint run_commands (JSON_stringify : jsval → string) (script : Script)
    (cmds : list Command) (st : State) : State :=
  match cmds with
  | [] => st
  | cmd :: rest =>
      run_commands JSON_stringify script rest
        (exec (handle JSON_stringify script cmd) st)
  end.

(** The selected movie, if any, is one of the catalog. *)
Definition selection_from_catalog (st : State) : Prop :=
  match currentPlayingMovie st with
  | Some movie => movie ∈ catalog_movies (videos st)
  | None => True
  end.

(** Stand-ins for [JSON.stringify] and [JSON.parse] that agree on the
    two values the examples store. *)
Definition echo_stringify (v : jsval) : string :=
  match v with
  | JObj _ => "settings"
  | JArr _ => "favorites"
  | _ => "other"
  end.

Definition echo_parse (text : string) : option jsval :=
  if bool_decide (text = "settings")
  then Some (JObj (newSettings_fields example_form))
  else if bool_decide (text = "favorites")
  then Some (JArr [JStr "action-0"])
  else None.

(** The page on the profile tab, the form on it, when the document had a
    table for Myanmar only. *)
Definition example_state_myanmar_only : State :=
  set_moviesContainer RProfile
    (set_activeNav (Some NavProfile)
       (set_translations {[ "myanmar" := JObj [] ]} example_state)).

(** The later script's page after a start-up whose fetch failed, the
    alert about it closed. *)
Definition example_state_after_failed_fetch : State :=
  exec closeCustomAlert
    (exec (startup sample_parse Dynamic FetchFailed) initial_state).

(** ** String facts behind id uniqueness *)

Lemma append_nil (t : string) : "" +:+ t = t.
Proof. reflexivity. Qed.

Lemma append_cons (a : ascii) (s t : string) :
  String a s +:+ t = String a (s +:+ t).
Proof. reflexivity. Qed.

Lemma has_dash_app (s t : string) :
  has_dash (s +:+ t) = has_dash s || has_dash t.
Proof.
  induction s as [|a s IH]; [done|].
  rewrite append_cons. simpl. rewrite IH. by rewrite orb_assoc.
Qed.

Lemma has_dash_digits (d : uint) :
  has_dash (NilEmpty.string_of_uint d) = false.
Proof. induction d; simpl; auto. Qed.

Lemma string_of_index_inj (i j : nat) :
  string_of_index i = string_of_index j → i = j.
Proof.
  unfold string_of_index. intros E.
  apply Unsigned.to_uint_inj.
  assert (Some (Nat.to_uint i) = Some (Nat.to_uint j)) as H; [|by injection H].
  by rewrite <- !NilEmpty.usu, E.
Qed.

(** The text after the last dash determines the split. *)
Lemma dash_split_inj (c1 c2 d1 d2 : string) :
  has_dash d1 = false → has_dash d2 = false →
  c1 +:+ "-" +:+ d1 = c2 +:+ "-" +:+ d2 → c1 = c2 ∧ d1 = d2.
Proof.
  intros H1 H2. revert c2.
  induction c1 as [|a c1 IH]; intros [|b c2] E.
  - rewrite !append_nil, !append_cons, !append_nil in E. by injection E.
  - rewrite append_nil, !append_cons, !append_nil in E.
    injection E as _ E. rewrite E, has_dash_app in H1. simpl in H1.
    rewrite orb_true_r in H1. discriminate.
  - rewrite append_nil, !append_cons, !append_nil in E.
    injection E as _ E. rewrite <- E, has_dash_app in H2. simpl in H2.
    rewrite orb_true_r in H2. discriminate.
  - rewrite !(append_cons _ _ ("-" +:+ _)) in E.
    injection E as Hab E. destruct (IH _ E) as [Hc Hd]. by subst.
Qed.

Lemma video_id_inj (c1 c2 : string) (i j : nat) :
  video_id c1 i = video_id c2 j → c1 = c2 ∧ i = j.
Proof.
  unfold video_id. intros E.
  apply dash_split_inj in E as [-> E];
    [|apply has_dash_digits|apply has_dash_digits].
  split; [done|]. by apply string_of_index_inj.
Qed.

(** ** [generateVideoIds] *)

Lemma generateVideoIds_keys (videos : Catalog) :
  (generateVideoIds videos).*1 = videos.*1.
Proof.
  unfold generateVideoIds. rewrite <- list_fmap_compose.
  by apply list_fmap_ext.
Qed.

(** The ids written into one category are the rendered indices, in order. *)
Lemma entry_ids (category : string) (ms : list Movie) :
  movie_id <$> imap (λ index movie, set_id movie (video_id category index)) ms
  = (λ index, Some (video_id category index)) <$> seq 0 (length ms).
Proof.
  apply list_eq. intros i.
  rewrite !list_lookup_fmap, list_lookup_imap.
  destruct (ms !! i) as [m|] eqn:E; simpl.
  - apply lookup_lt_Some in E. by rewrite lookup_seq_lt.
  - apply lookup_ge_None in E. by rewrite lookup_seq_ge.
Qed.

Lemma entry_ids_NoDup (category : string) (ms : list Movie) :
  NoDup (movie_id <$>
         imap (λ index movie, set_id movie (video_id category index)) ms).
Proof.
  rewrite entry_ids. apply NoDup_fmap_2; [|apply NoDup_seq].
  intros i j E. injection E as E. by apply video_id_inj in E as [_ ?].
Qed.

Lemma catalog_movies_cons (category : string) (ms : list Movie)
    (videos : Catalog) :
  catalog_movies ((category, ms) :: videos)
  = (ms ++ catalog_movies videos)%list.
Proof. reflexivity. Qed.

(** Every id in the catalog after the step names a key of the catalog. *)
Lemma generated_id_key (videos : Catalog) (x : option string) :
  x ∈ movie_id <$> catalog_movies (generateVideoIds videos) →
  ∃ category index, category ∈ videos.*1 ∧ x = Some (video_id category index).
Proof.
  induction videos as [|[c ms] videos IH]; simpl.
  - by intros ?%elem_of_nil.
  - rewrite catalog_movies_cons, fmap_app, elem_of_app. intros [H|H].
    + simpl in H. rewrite entry_ids in H.
      apply list_elem_of_fmap in H as (i & -> & _).
      exists c, i. split; [left|done].
    + destruct (IH H) as (c' & i & ? & ->).
      exists c', i. split; [by right|done].
Qed.

Lemma generateVideoIds_NoDup (videos : Catalog) :
  NoDup videos.*1 →
  NoDup (movie_id <$> catalog_movies (generateVideoIds videos)).
Proof.
  induction videos as [|[c ms] videos IH]; simpl.
  - intros _. constructor.
  - intros [Hc Hrest]%NoDup_cons.
    rewrite catalog_movies_cons, fmap_app. apply NoDup_app. split_and!.
    + apply entry_ids_NoDup.
    + intros x Hx Hx'. simpl in Hx. rewrite entry_ids in Hx.
      apply list_elem_of_fmap in Hx as (i & -> & _).
      apply generated_id_key in Hx' as (c' & j & Hc' & E).
      injection E as E. apply video_id_inj in E as [-> _]. done.
    + by apply IH.
Qed.

Lemma generateVideoIds_lookup (videos : Catalog) (category : string)
    (ms : list Movie) (index : nat) (movie : Movie) :
  (category, ms) ∈ generateVideoIds videos →
  ms !! index = Some movie →
  movie_id movie = Some (video_id category index).
Proof.
  intros Hin Hlook. unfold generateVideoIds in Hin.
  apply list_elem_of_fmap in Hin as ([c ms0] & E & _).
  simpl in E. injection E as -> ->.
  rewrite list_lookup_imap in Hlook.
  destruct (ms0 !! index) as [m|]; simpl in Hlook; [|done].
  by injection Hlook as <-.
Qed.

(** C1.  After [generateVideoIds] the catalog has the categories it was
    loaded with, in their order, each with as many movies as before, and
    the movie loaded at a position of a category is there at that
    position with the id made of the category, a dash and that zero-based
    position; every movie's id has that form, and no two movies of the
    catalog share an id. *)
Theorem generateVideoIds_assigns_unique_ids (videos : Catalog) :
  NoDup videos.*1 →
  length (generateVideoIds videos) = length videos
  ∧ (∀ k category ms,
       videos !! k = Some (category, ms) →
       ∃ ms',
         generateVideoIds videos !! k = Some (category, ms')
         ∧ length ms' = length ms
         ∧ ∀ index raw,
             ms !! index = Some raw →
             ms' !! index = Some (set_id raw (video_id category index)))
  ∧ (∀ category ms index movie,
       (category, ms) ∈ generateVideoIds videos →
       ms !! index = Some movie →
       movie_id movie = Some (video_id category index))
  ∧ NoDup (movie_id <$> catalog_movies (generateVideoIds videos)).
Proof.
  intros Hkeys. split_and!.
  - unfold generateVideoIds. apply length_fmap.
  - intros k category ms Hk.
    exists (imap (λ index movie, set_id movie (video_id category index)) ms).
    split_and!.
    + unfold generateVideoIds. by rewrite list_lookup_fmap, Hk.
    + apply length_imap.
    + intros index raw Hraw. by rewrite list_lookup_imap, Hraw.
  - intros category ms index movie. apply generateVideoIds_lookup.
  - by apply generateVideoIds_NoDup.
Qed.

Lemma generateVideoIds_assigns_unique_ids_witness :
  NoDup (movie_id <$> catalog_movies (generateVideoIds example_catalog))
  ∧ ∃ ms',
      generateVideoIds example_catalog !! 0 = Some ("action", ms')
      ∧ length ms' = 2
      ∧ ms' !! 1 = Some (set_id (raw_movie "B") (video_id "action" 1)).
Proof.
  assert (NoDup example_catalog.*1) as Hkeys.
  { apply NoDup_cons. split; [|apply NoDup_singleton].
    by intros [=]%list_elem_of_singleton. }
  destruct (generateVideoIds_assigns_unique_ids example_catalog Hkeys)
    as (_ & Hpos & _ & Hnd).
  split; [exact Hnd|].
  destruct (Hpos 0 "action" [raw_movie "A"; raw_movie "B"] eq_refl)
    as (ms' & Hk & Hlen & Hat).
  exists ms'. split; [exact Hk|]. split; [exact Hlen|].
  by apply (Hat 1 (raw_movie "B")).
Defined.

(** ** Comparing and searching *)

Lemma strict_eq_true (a b : jsval) : strict_eq a b = true → a = b.
Proof.
  destruct a, b; simpl; try discriminate; try done;
    intros H%bool_decide_eq_true; by subst.
Qed.

Lemma strict_eq_refl (a : jsval) : primitive a = true → strict_eq a a = true.
Proof.
  destruct a; simpl; try discriminate; try done;
    intros _; by apply bool_decide_eq_true.
Qed.

Lemma id_of_primitive (m : Movie) : primitive (id_of m) = true.
Proof. unfold id_of. by destruct (movie_id m). Qed.

Lemma includes_true (l : list jsval) (v : jsval) :
  primitive v = true → includes l v = true ↔ v ∈ l.
Proof.
  intros Hv. unfold includes. rewrite existsb_exists. split.
  - intros (x & Hx%list_elem_of_In & E). by apply strict_eq_true in E as ->.
  - intros H. exists v. split; [by apply list_elem_of_In|].
    by apply strict_eq_refl.
Qed.

Lemma includes_false (l : list jsval) (v : jsval) :
  primitive v = true → includes l v = false ↔ v ∉ l.
Proof.
  intros Hv. rewrite <- includes_true by done.
  destruct (includes l v); split; done.
Qed.

Lemma includes_app (l k : list jsval) (v : jsval) :
  includes (l ++ k) v = includes l v || includes k v.
Proof. unfold includes. apply existsb_app. Qed.

Lemma indexOf_none (l : list jsval) (v : jsval) :
  indexOf l v = None ↔ includes l v = false.
Proof.
  induction l as [|x l IH]; simpl; [done|].
  destruct (strict_eq x v); simpl; [done|].
  rewrite <- IH. by destruct (indexOf l v).
Qed.

(** [indexOf] finds the first element equal to [v]; removing it leaves
    the elements around it. *)
Lemma indexOf_some (l : list jsval) (v : jsval) (index : nat) :
  indexOf l v = Some index →
  ∃ before after,
    l = before ++ v :: after ∧ includes before v = false ∧
    splice1 l index = before ++ after.
Proof.
  revert index. induction l as [|x l IH]; intros index; simpl; [done|].
  destruct (strict_eq x v) eqn:E.
  - intros [= <-]. apply strict_eq_true in E as ->.
    by exists [], l.
  - destruct (indexOf l v) as [i|] eqn:Hi; simpl; [|done].
    intros [= <-]. destruct (IH i eq_refl) as (b & a & -> & Hb & Hs).
    exists (x :: b), a. split; [done|]. split.
    + simpl. by rewrite E.
    + unfold splice1 in *. rewrite <- !app_comm_cons.
      change (x :: delete i (b ++ v :: a) = x :: (b ++ a)). by f_equal.
Qed.

Lemma filter_absent (l : list jsval) (v : jsval) :
  includes l v = false →
  List.filter (λ id, negb (strict_eq id v)) l = l.
Proof.
  induction l as [|x l IH]; simpl; [done|].
  destruct (strict_eq x v); simpl; [done|]. intros H. by rewrite IH.
Qed.

Lemma filter_app_bool {A} (f : A → bool) (l k : list A) :
  List.filter f (l ++ k) = List.filter f l ++ List.filter f k.
Proof. apply List.filter_app. Qed.

(** ** What one toggle does to the list *)

Lemma toggled_absent (script : Script) (favs : list jsval) (movieId : jsval) :
  includes favs movieId = false →
  toggled script favs movieId = favs ++ [movieId].
Proof.
  intros H. unfold toggled, push. destruct script.
  - by rewrite H.
  - apply indexOf_none in H. by rewrite H.
Qed.

Lemma toggled_present (script : Script) (favs : list jsval) (movieId : jsval) :
  primitive movieId = true → NoDup favs → includes favs movieId = true →
  ∃ before after,
    favs = before ++ movieId :: after ∧
    toggled script favs movieId = before ++ after ∧
    includes (before ++ after) movieId = false.
Proof.
  intros Hp Hnd Hin.
  destruct (indexOf favs movieId) as [index|] eqn:Hi;
    [|apply indexOf_none in Hi; congruence].
  destruct (indexOf_some _ _ _ Hi) as (b & a & -> & Hb & Hs).
  apply NoDup_app in Hnd as (_ & Hdisj & [Ha _]%NoDup_cons).
  assert (includes a movieId = false) as Ha' by by apply includes_false.
  exists b, a. split; [done|].
  split; [|by rewrite includes_app, Hb, Ha'].
  unfold toggled. destruct script.
  - rewrite Hin. simpl. rewrite filter_app_bool. simpl.
    rewrite (strict_eq_refl movieId Hp). simpl.
    by rewrite !filter_absent.
  - by rewrite Hi.
Qed.


(** ** Frames *)

Section Frames.
Context {B : Type} (f : State → B).

Lemma preserves_ret {A} (a : A) : preserves f (mret a).
Proof. by intros st. Qed.

Lemma preserves_throw {A} (e : Exn) : preserves f (@throw A e).
Proof. by intros st. Qed.

Lemma preserves_gets {A} (g : State → A) : preserves f (gets g).
Proof. by intros st. Qed.

Lemma preserves_modify (g : State → State) :
  (∀ st, f (g st) = f st) → preserves f (modify g).
Proof. intros H st. apply H. Qed.

Lemma preserves_bind {A C} (m : M A) (k : A → M C) :
  preserves f m → (∀ a, preserves f (k a)) → preserves f (m ≫= k).
Proof.
  intros Hm Hk st. specialize (Hm st). unfold exec in *.
  unfold mbind, M_bind. destruct (m st) as [[a|e] st']; simpl in *.
  - rewrite <- Hm. apply (Hk a st').
  - done.
Qed.

Lemma preserves_try_catch {A} (body : M A) (handler : Exn → M A) :
  preserves f body → (∀ e, preserves f (handler e)) →
  preserves f (try_catch body handler).
Proof.
  intros Hb Hh st. specialize (Hb st). unfold exec, try_catch in *.
  destruct (body st) as [[a|e] st']; simpl in *.
  - done.
  - rewrite <- Hb. apply (Hh e st').
Qed.

Lemma preserves_when (b : bool) (m : M unit) :
  preserves f m → preserves f (when b m).
Proof. intros H. destruct b; [done|]. apply preserves_ret. Qed.

Lemma preserves_setItem (key value : string) :
  (∀ x st, f (set_localStorage x st) = f st) →
  preserves f (setItem key value).
Proof.
  intros H st. unfold exec, setItem.
  destruct (storageWritable st); simpl; [apply H|done].
Qed.

Lemma preserves_setItem_key (key value : string) :
  (∀ st, f (set_localStorage (<[key := value]> (localStorage st)) st)
         = f st) →
  preserves f (setItem key value).
Proof.
  intros H st. unfold exec, setItem.
  destruct (storageWritable st); simpl; [apply H|done].
Qed.

Lemma preserves_read_table (language : jsval) :
  preserves f (read_table language).
Proof.
  intros st. unfold exec, read_table.
  by destruct (nullish (table_for (translations st) language)).
Qed.
End Frames.

Create HintDb scripts.

#[local] Hint Unfold
  parse read_t loadDataFromJSON generateVideoIds_step
  updateFavoriteButtonState showCategory displayTrending displayFavorites
  displayProfileSettings applyLanguage rerender_active applySettings
  changeNav query_homeBtn find_movie playVideo saveFavoritesToLocalStorage
  toggleFavorite saveSettings loadSettings loadFavorites initializeApp
  startup getItem console_error showCustomAlert closeCustomAlert : scripts.

(** Walks through a script body, splitting on every branch. *)
Ltac frame :=
  autounfold with scripts;
  repeat first
    [ progress intros
    | apply preserves_ret
    | apply preserves_throw
    | apply preserves_gets
    | apply preserves_read_table
    | apply preserves_bind
    | apply preserves_try_catch
    | apply preserves_when
    | apply preserves_setItem; reflexivity
    | apply preserves_setItem_key; intros; simpl; by rewrite lookup_insert_ne
    | apply preserves_modify;
      solve [reflexivity | intros; simpl; by rewrite lookup_insert_ne]
    | match goal with
      | |- preserves _ (match ?x with _ => _ end) => destruct x
      end ].

(** Running the first step of a sequence. *)
Lemma exec_bind_gets {A C} (g : State → A) (k : A → M C) (st : State) :
  exec (gets g ≫= k) st = exec (k (g st)) st.
Proof. reflexivity. Qed.

Lemma exec_bind_modify {C} (g : State → State) (k : unit → M C) (st : State) :
  exec (modify g ≫= k) st = exec (k tt) (g st).
Proof. reflexivity. Qed.

Lemma outcome_bind_gets {A C} (g : State → A) (k : A → M C) (st : State) :
  outcome (gets g ≫= k) st = outcome (k (g st)) st.
Proof. reflexivity. Qed.

(** Rewrites [f (exec m st)] to [f st] when [m] leaves [f] alone. *)
Ltac framed :=
  match goal with
  | |- context [?f (exec ?m ?st)] =>
      let P := fresh "P" in
      assert (preserves f m) as P by frame;
      rewrite (P st); clear P
  end.

(** The same for an observation given by hand. *)
Ltac framed_by f :=
  match goal with
  | |- context [exec ?m ?st] =>
      let P := fresh "P" in
      assert (preserves f m) as P by frame;
      specialize (P st); cbv beta in P; rewrite P; clear P
  end.

(** ** Toggling a favorite *)

Lemma toggled_flips (script : Script) (favs : list jsval) (movieId : jsval) :
  primitive movieId = true → NoDup favs →
  includes (toggled script favs movieId) movieId
  = negb (includes favs movieId).
Proof.
  intros Hp Hnd. destruct (includes favs movieId) eqn:Hin.
  - destruct (toggled_present script _ _ Hp Hnd Hin) as (b & a & _ & -> & E).
    done.
  - rewrite toggled_absent by done.
    rewrite includes_app, Hin. simpl. by rewrite strict_eq_refl.
Qed.

Lemma toggled_NoDup (script : Script) (favs : list jsval) (movieId : jsval) :
  primitive movieId = true → NoDup favs →
  NoDup (toggled script favs movieId).
Proof.
  intros Hp Hnd. destruct (includes favs movieId) eqn:Hin.
  - destruct (toggled_present script _ _ Hp Hnd Hin) as (b & a & E & -> & _).
    subst favs. apply NoDup_app in Hnd as (Hb & Hdisj & [_ Ha]%NoDup_cons).
    apply NoDup_app. split; [done|]. split; [|done].
    intros x Hx Hx'. apply (Hdisj x Hx). by right.
  - rewrite toggled_absent by done.
    apply NoDup_app. split; [done|]. split; [|apply NoDup_singleton].
    intros x Hx ->%list_elem_of_singleton.
    by apply (includes_false favs movieId Hp).
Qed.

(** Up to order, a toggle moves the id in or out and touches nothing
    else. *)
Lemma toggled_perm (script : Script) (favs : list jsval) (movieId : jsval) :
  primitive movieId = true → NoDup favs →
  if includes favs movieId
  then favs ≡ₚ movieId :: toggled script favs movieId
  else toggled script favs movieId ≡ₚ movieId :: favs.
Proof.
  intros Hp Hnd. destruct (includes favs movieId) eqn:Hin.
  - destruct (toggled_present script _ _ Hp Hnd Hin) as (b & a & E & -> & _).
    subst favs. by rewrite Permutation_middle.
  - rewrite toggled_absent by done. by rewrite Permutation_app_comm.
Qed.

Lemma toggled_twice (script : Script) (favs : list jsval) (movieId : jsval) :
  primitive movieId = true → NoDup favs →
  toggled script (toggled script favs movieId) movieId ≡ₚ favs.
Proof.
  intros Hp Hnd.
  pose proof (toggled_perm script favs movieId Hp Hnd) as H1.
  pose proof (toggled_perm script _ movieId Hp
                (toggled_NoDup script favs movieId Hp Hnd)) as H2.
  rewrite (toggled_flips script favs movieId Hp Hnd) in H2.
  destruct (includes favs movieId); simpl in H2.
  - etrans; [exact H2|]. by symmetry.
  - apply (Permutation_cons_inv (a := movieId)).
    etrans; [symmetry; exact H2|exact H1].
Qed.

Section ToggleFavorite.
Variable JSON_stringify : jsval → string.
Variable script : Script.

Lemma toggleFavorite_playing :
  preserves currentPlayingMovie (toggleFavorite JSON_stringify script).
Proof. frame. Qed.

Lemma toggleFavorite_favorites (st : State) (movie : Movie) :
  currentPlayingMovie st = Some movie →
  favorites (exec (toggleFavorite JSON_stringify script) st)
  = toggled script (favorites st) (id_of movie).
Proof.
  intros Hplay. unfold toggleFavorite.
  rewrite exec_bind_gets, Hplay, exec_bind_gets, exec_bind_modify.
  by framed.
Qed.
End ToggleFavorite.

(** C2.  With a movie playing and no id stored twice, the first
    [toggleFavorite] flips the membership of the movie's id, the second
    flips it back, and after the two calls [favorites] holds what it held
    before (the same ids, each once). *)
Theorem toggleFavorite_twice_restores
    (JSON_stringify : jsval → string) (script : Script)
    (st : State) (movie : Movie) :
  currentPlayingMovie st = Some movie →
  NoDup (favorites st) →
  let movieId := id_of movie in
  let st1 := exec (toggleFavorite JSON_stringify script) st in
  let st2 := exec (toggleFavorite JSON_stringify script) st1 in
  includes (favorites st1) movieId = negb (includes (favorites st) movieId)
  ∧ includes (favorites st2) movieId = includes (favorites st) movieId
  ∧ favorites st2 ≡ₚ favorites st
  ∧ NoDup (favorites st2).
Proof.
  intros Hplay Hnd movieId st1 st2.
  pose proof (id_of_primitive movie) as Hp.
  assert (favorites st1 = toggled script (favorites st) movieId) as E1
    by by apply toggleFavorite_favorites.
  assert (currentPlayingMovie st1 = Some movie) as Hplay1
    by (unfold st1; by rewrite toggleFavorite_playing).
  assert (favorites st2 = toggled script (favorites st1) movieId) as E2
    by by apply toggleFavorite_favorites.
  pose proof (toggled_NoDup script _ movieId Hp Hnd) as Hnd1.
  rewrite E2, E1. split_and!.
  - by apply toggled_flips.
  - rewrite !toggled_flips by done. by rewrite negb_involutive.
  - by apply toggled_twice.
  - by apply toggled_NoDup.
Qed.

Lemma toggleFavorite_twice_restores_witness :
  favorites
    (exec (toggleFavorite sample_stringify Dynamic)
       (exec (toggleFavorite sample_stringify Dynamic) example_state))
  ≡ₚ favorites example_state.
Proof.
  assert (NoDup (favorites example_state)) as Hnd by constructor.
  apply (toggleFavorite_twice_restores sample_stringify Dynamic
           example_state example_movie eq_refl Hnd).
Defined.

(** The order is not restored: an id that was stored comes back last. *)
Example toggled_twice_moves_id_last (script : Script) :
  toggled script (toggled script [JStr "a"; JStr "b"] (JStr "a")) (JStr "a")
  = [JStr "b"; JStr "a"].
Proof. by destruct script. Qed.

(** ** Looking a movie up *)

Lemma find_some {A} (p : A → bool) (l : list A) (x : A) :
  List.find p l = Some x → x ∈ l ∧ p x = true.
Proof.
  intros [H ?]%List.find_some. split; [by apply list_elem_of_In|done].
Qed.

Lemma findMovieById_Some (videos : Catalog) (id : jsval) (movie : Movie) :
  findMovieById videos id = Some movie →
  movie ∈ catalog_movies videos ∧ id_of movie = id.
Proof.
  induction videos as [|[c ms] videos IH]; simpl; [done|].
  rewrite catalog_movies_cons, elem_of_app.
  destruct (List.find _ ms) as [m|] eqn:E.
  - intros [= ->]. apply find_some in E as [? ?%strict_eq_true]. auto.
  - intros H. destruct (IH H). auto.
Qed.

Lemma findMovieById_None (videos : Catalog) (id : jsval) :
  (∀ movie, movie ∈ catalog_movies videos → id_of movie ≠ id) →
  findMovieById videos id = None.
Proof.
  intros H. destruct (findMovieById videos id) as [m|] eqn:E; [|done].
  apply findMovieById_Some in E as [Hin Hid]. by destruct (H m Hin).
Qed.

(** C3.  [playVideo] with an id that no movie of the catalog carries
    returns normally, leaves [currentPlayingMovie] as it was (a movie
    selected before stays selected), and changes nothing but the
    "movie not found" signal: an entry on the error console in script.js,
    the error alert in the later script. *)
Theorem playVideo_unknown_id_keeps_selection
    (script : Script) (st : State) (movieId : jsval) :
  (∀ movie, movie ∈ catalog_movies (videos st) → id_of movie ≠ movieId) →
  outcome (playVideo script movieId) st = Return tt
  ∧ currentPlayingMovie (exec (playVideo script movieId) st)
    = currentPlayingMovie st
  ∧ exec (playVideo script movieId) st
    = match script with
      | Legacy =>
          set_consoleErrors
            (consoleErrors st ++ [ErrMovieNotFound movieId]) st
      | Dynamic =>
          set_alertModal (Some (mkAlert TitleError MsgMovieNotFound)) st
      end.
Proof.
  intros Hmissing. apply findMovieById_None in Hmissing.
  unfold playVideo, find_movie.
  rewrite outcome_bind_gets, !exec_bind_gets, Hmissing.
  by destruct script.
Qed.

Lemma playVideo_unknown_id_keeps_selection_witness :
  currentPlayingMovie (exec (playVideo Dynamic (JStr "missing-99"))
                         example_state)
  = Some example_movie.
Proof.
  apply (playVideo_unknown_id_keeps_selection Dynamic example_state
           (JStr "missing-99")).
  intros movie Hin. vm_compute in Hin.
  repeat (apply elem_of_cons in Hin as [->|Hin]; [discriminate|]).
  by apply elem_of_nil in Hin.
Defined.

(** ** The trending selection *)

Lemma slice_last {A} (l : list A) (n : nat) :
  slice l (- Z.of_nat (S n)) = drop (length l - S n) l.
Proof.
  unfold slice.
  assert ((- Z.of_nat (S n) <? 0)%Z = true) as -> by (apply Z.ltb_lt; lia).
  f_equal. lia.
Qed.

Lemma allMovies_concat (videos : Catalog) :
  allMovies videos = catalog_movies videos.
Proof.
  unfold allMovies.
  enough (∀ acc, foldl (λ acc entry, acc ++ entry.2) acc videos
                 = acc ++ catalog_movies videos) as H by apply (H []).
  induction videos as [|[c ms] videos IH]; intros acc; simpl.
  - by rewrite app_nil_r.
  - by rewrite IH, catalog_movies_cons, app_assoc.
Qed.

(** C5.  The trending selection is the concatenation of the categories'
    arrays in the catalog's iteration order cut down to its last ten
    entries, all of them when there are at most ten; for the catalog
    with ids action-0, action-1 and drama-0 it is those three in that
    order. *)
Theorem trendingMovies_last_ten (videos : Catalog) :
  let all := catalog_movies videos in
  trendingMovies videos = drop (length all - 10) all
  ∧ length (trendingMovies videos) = min 10 (length all)
  ∧ ((length all ≤ 10)%nat → trendingMovies videos = all)
  ∧ movie_id <$> trendingMovies (generateVideoIds example_catalog)
    = [Some "action-0"; Some "action-1"; Some "drama-0"].
Proof.
  intros all.
  assert (trendingMovies videos = drop (length all - 10) all) as E.
  { unfold trendingMovies. rewrite allMovies_concat. apply (slice_last all 9). }
  split_and!.
  - done.
  - rewrite E, length_drop. lia.
  - intros Hle. rewrite E.
    replace (length all - 10) with 0 by lia. done.
  - reflexivity.
Qed.

Lemma trendingMovies_last_ten_witness :
  trendingMovies example_catalog = catalog_movies example_catalog.
Proof.
  apply (trendingMovies_last_ten example_catalog). simpl. lia.
Defined.

(** ** Loading the favorites *)

(** What [loadFavorites] computes, case by case. *)
Lemma loadFavorites_run (JSON_parse : string → option jsval)
    (script : Script) (st : State) :
  outcome (loadFavorites JSON_parse script) st = Return tt
  ∧ favorites (exec (loadFavorites JSON_parse script) st)
    = match localStorage st !! "favorites" with
      | Some text =>
          if truthy_text text then
            match JSON_parse text with
            | Some parsed => array_or_empty parsed
            | None => []
            end
          else []
      | None => []
      end.
Proof.
  unfold loadFavorites, getItem, outcome, exec, parse.
  unfold mbind, M_bind, gets, try_catch, modify, throw. simpl.
  destruct (localStorage st !! "favorites") as [text|]; simpl; [|done].
  destruct (truthy_text text); simpl; [|done].
  destruct (JSON_parse text) as [parsed|]; simpl; [done|].
  by destruct script.
Qed.

(** C6.  Whatever durable storage holds under [favorites], loading the
    favorites returns without an exception; it leaves the empty list
    when the key is missing, when the text is not JSON, and when it is
    JSON for something other than an array; a non-empty list can only
    be the elements of a stored JSON array. *)
Theorem loadFavorites_falls_back_to_empty
    (JSON_parse : string → option jsval) (script : Script) (st : State) :
  let st' := exec (loadFavorites JSON_parse script) st in
  let stored := localStorage st !! "favorites" in
  outcome (loadFavorites JSON_parse script) st = Return tt
  ∧ (stored = None → favorites st' = [])
  ∧ (∀ text, stored = Some text → JSON_parse text = None →
       favorites st' = [])
  ∧ (∀ text parsed, stored = Some text → JSON_parse text = Some parsed →
       isArray parsed = false → favorites st' = [])
  ∧ (∀ text elems, stored = Some text → text ≠ "" →
       JSON_parse text = Some (JArr elems) → favorites st' = elems)
  ∧ (favorites st' ≠ [] →
       ∃ text elems, stored = Some text
                     ∧ JSON_parse text = Some (JArr elems)
                     ∧ favorites st' = elems).
Proof.
  intros st' stored.
  destruct (loadFavorites_run JSON_parse script st) as [Hout Hfav].
  fold st' in Hfav. fold stored in Hfav.
  split; [done|]. split_and!.
  - intros E. by rewrite Hfav, E.
  - intros text E Hp. rewrite Hfav, E, Hp. by destruct (truthy_text text).
  - intros text parsed E Hp Harr. rewrite Hfav, E, Hp.
    destruct (truthy_text text); [|done]. by destruct parsed.
  - intros text elems E Hne Hp. rewrite Hfav, E, Hp.
    unfold truthy_text. by rewrite bool_decide_eq_false_2.
  - intros Hne. rewrite Hfav in Hne |- *.
    destruct stored as [text|]; [|done]. exists text.
    destruct (truthy_text text); [|done].
    destruct (JSON_parse text) as [[]|]; try done. by eexists.
Qed.

Lemma loadFavorites_falls_back_to_empty_witness :
  favorites
    (exec (loadFavorites sample_parse Dynamic)
       (set_localStorage {[ "favorites" := "7" ]} example_state_with_favorites))
  = []
  ∧ favorites
      (exec (loadFavorites sample_parse Dynamic)
         (set_localStorage {[ "favorites" := "[7]" ]} example_state))
    = [JNum 7].
Proof.
  split.
  - destruct (loadFavorites_falls_back_to_empty sample_parse Dynamic
                (set_localStorage {[ "favorites" := "7" ]}
                   example_state_with_favorites))
      as (_ & _ & _ & Hother & _).
    by apply (Hother "7" (JNum 7)).
  - destruct (loadFavorites_falls_back_to_empty sample_parse Dynamic
                (set_localStorage {[ "favorites" := "[7]" ]} example_state))
      as (_ & _ & _ & _ & Harray & _).
    by apply (Harray "[7]" [JNum 7]).
Defined.

(** ** The favorite toggle with nothing selected *)

(** X29.  With no movie selected, [toggleFavorite] changes neither the
    favorites in memory nor durable storage.  script.js shakes the
    favorite button and changes nothing else.  The later script, with the
    table of the current language loaded, opens the alert whose text is
    the table's [selectMovieForFavorite] and changes nothing else; with no
    table to read (and a language that names no member of
    [Object.prototype]) it throws a [TypeError] and changes nothing. *)
Theorem toggleFavorite_nothing_selected
    (JSON_stringify : jsval → string) (script : Script) (st : State) :
  currentPlayingMovie st = None →
  let st' := exec (toggleFavorite JSON_stringify script) st in
  favorites st' = favorites st
  ∧ localStorage st' = localStorage st
  ∧ match script with
    | Legacy =>
        st' = set_favoriteBtnShake true st
        ∧ outcome (toggleFavorite JSON_stringify script) st
          = Return JUndefined
    | Dynamic =>
        (table_loaded st →
         st' = set_alertModal
                 (Some (mkAlert TitleFavorite MsgSelectMovieForFavorite)) st
         ∧ outcome (toggleFavorite JSON_stringify script) st
           = Return JUndefined)
        ∧ (¬ table_loaded st →
           object_prototype_member
             (to_string (get_prop (currentSettings st) (JStr "language")))
           = false →
           st' = st
           ∧ outcome (toggleFavorite JSON_stringify script) st
             = Throw TypeError)
    end.
Proof.
  intros Hnone st'. unfold st', toggleFavorite, table_loaded.
  rewrite !exec_bind_gets, !outcome_bind_gets, Hnone.
  destruct script; [done|].
  unfold read_t, read_table, showCustomAlert, exec, outcome.
  unfold mbind, M_bind, gets, modify. simpl.
  destruct (nullish _); simpl; split_and!; done.
Qed.

Lemma toggleFavorite_nothing_selected_witness :
  exec (toggleFavorite sample_stringify Dynamic)
    (set_currentPlayingMovie None example_state_with_favorites)
  = set_alertModal (Some (mkAlert TitleFavorite MsgSelectMovieForFavorite))
      (set_currentPlayingMovie None example_state_with_favorites).
Proof.
  destruct (toggleFavorite_nothing_selected sample_stringify Dynamic
              (set_currentPlayingMovie None example_state_with_favorites)
              eq_refl) as (_ & _ & Hloaded & _).
  by apply Hloaded.
Defined.

(** C9.  The later script after a start-up whose fetch failed: no movie
    is selected and no alert is open; [toggleFavorite] throws a
    [TypeError] and leaves the state as it was, so no alert opens and
    nothing tells the user that no movie is selected. *)
Theorem toggleFavorite_no_notice_without_table :
  let st := example_state_after_failed_fetch in
  currentPlayingMovie st = None
  ∧ alertModal st = None
  ∧ outcome (toggleFavorite sample_stringify Dynamic) st = Throw TypeError
  ∧ exec (toggleFavorite sample_stringify Dynamic) st = st.
Proof. by vm_compute. Qed.

(** ** The favorites view *)


Lemma favoriteCards_ids (videos : Catalog) (favs todo : list jsval) :
  (λ card, id_of (card_movie card)) <$> favoriteCards videos favs todo
  = filter (λ id, is_Some (findMovieById videos id)) todo.
Proof.
  induction todo as [|id todo IH]; csimpl; [done|].
  destruct (findMovieById videos id) as [movie|] eqn:E.
  - rewrite filter_cons_True by (by rewrite E). csimpl.
    apply findMovieById_Some in E as [_ ->]. by rewrite IH.
  - rewrite filter_cons_False by (rewrite E; by intros []). done.
Qed.


Lemma displayFavorites_run (st : State) :
  table_loaded st →
  displayFavorites st
  = (Return tt,
     set_moviesContainer
       (match favorites st with
        | [] => RFavorites true []
        | _ :: _ =>
            RFavorites false
              (favoriteCards (videos st) (favorites st) (favorites st))
        end) st).
Proof.
  unfold table_loaded. intros Hloaded.
  unfold displayFavorites, read_t, read_table.
  unfold mbind, M_bind, gets, modify. simpl. by rewrite Hloaded.
Qed.




(** ** The favorite toggle with a movie selected *)

Lemma exec_bind_run {A C} (m : M A) (k : A → M C) (st st1 : State) (a : A) :
  m st = (Return a, st1) → exec (m ≫= k) st = exec (k a) st1.
Proof. unfold exec, mbind, M_bind. by intros ->. Qed.

Lemma exec_bind_ret {A C} (a : A) (k : A → M C) (st : State) :
  exec (mret a ≫= k) st = exec (k a) st.
Proof. reflexivity. Qed.

(** What follows a step cannot undo what it leaves alone. *)
Lemma exec_bind_framed {A B C} (f : State → B) (m : M A) (k : A → M C)
    (st : State) :
  (∀ a, preserves f (k a)) → f (exec (m ≫= k) st) = f (exec m st).
Proof.
  intros Hk. unfold exec, mbind, M_bind.
  destruct (m st) as [[a|e] st1]; simpl; [apply (Hk a st1)|done].
Qed.

Lemma exec_try_catch_framed {A B} (f : State → B) (body : M A)
    (handler : Exn → M A) (st : State) :
  (∀ e, preserves f (handler e)) →
  f (exec (try_catch body handler) st) = f (exec body st).
Proof.
  intros Hh. unfold exec, try_catch.
  destruct (body st) as [[a|e] st1]; simpl; [done|apply (Hh e st1)].
Qed.

Section Persisting.
Variable JSON_stringify : jsval → string.

(** The write either lands or is logged; it never escapes. *)
Lemma saveFavoritesToLocalStorage_run (st : State) :
  saveFavoritesToLocalStorage JSON_stringify st
  = (Return tt,
     if storageWritable st
     then set_localStorage
            (<["favorites" := JSON_stringify (JArr (favorites st))]>
               (localStorage st)) st
     else set_consoleErrors (consoleErrors st ++ [ErrFavoritesSave]) st).
Proof.
  unfold saveFavoritesToLocalStorage, try_catch, setItem, console_error.
  unfold mbind, M_bind, gets, modify. simpl.
  by destruct (storageWritable st).
Qed.

Variable script : Script.

Lemma toggleFavorite_storage (st : State) (movie : Movie) :
  currentPlayingMovie st = Some movie →
  localStorage (exec (toggleFavorite JSON_stringify script) st)
  = if storageWritable st
    then <["favorites" :=
             JSON_stringify
               (JArr (toggled script (favorites st) (id_of movie)))]>
           (localStorage st)
    else localStorage st.
Proof.
  intros Hplay. unfold toggleFavorite.
  rewrite exec_bind_gets, Hplay, exec_bind_gets, exec_bind_modify.
  destruct script; cbv beta iota.
  - rewrite exec_bind_ret.
    erewrite exec_bind_run by apply saveFavoritesToLocalStorage_run.
    framed. simpl. by destruct (storageWritable st).
  - unfold showCustomAlert at 1. rewrite exec_bind_modify.
    erewrite exec_bind_run by apply saveFavoritesToLocalStorage_run.
    framed. simpl. by destruct (storageWritable st).
Qed.


End Persisting.





(** ** Invariants *)

Section Invariants.
Context (J : State → Prop).

Lemma invariant_ret {A} (a : A) : invariant J (mret a).
Proof. by intros st. Qed.

Lemma invariant_throw {A} (e : Exn) : invariant J (@throw A e).
Proof. by intros st. Qed.

Lemma invariant_gets {A} (g : State → A) : invariant J (gets g).
Proof. by intros st. Qed.

Lemma invariant_modify (g : State → State) :
  (∀ st, J st → J (g st)) → invariant J (modify g).
Proof. intros H st. apply H. Qed.

Lemma invariant_bind {A C} (m : M A) (k : A → M C) :
  invariant J m → (∀ a, invariant J (k a)) → invariant J (m ≫= k).
Proof.
  intros Hm Hk st HJ. specialize (Hm st HJ). unfold exec in *.
  unfold mbind, M_bind. destruct (m st) as [[a|e] st']; simpl in *.
  - by apply (Hk a st').
  - done.
Qed.

Lemma invariant_try_catch {A} (body : M A) (handler : Exn → M A) :
  invariant J body → (∀ e, invariant J (handler e)) →
  invariant J (try_catch body handler).
Proof.
  intros Hb Hh st HJ. specialize (Hb st HJ). unfold exec, try_catch in *.
  destruct (body st) as [[a|e] st']; simpl in *.
  - done.
  - by apply (Hh e st').
Qed.

Lemma invariant_when (b : bool) (m : M unit) :
  invariant J m → invariant J (when b m).
Proof. intros H. destruct b; [done|]. apply invariant_ret. Qed.

Lemma invariant_read_table (language : jsval) :
  invariant J (read_table language).
Proof.
  intros st HJ. unfold exec, read_table.
  by destruct (nullish (table_for (translations st) language)).
Qed.
End Invariants.

(** Walks through a script body; [tac] has to show that each update keeps
    the invariant. *)
Ltac invariant_with tac :=
  autounfold with scripts;
  repeat first
    [ progress intros
    | apply invariant_ret
    | apply invariant_throw
    | apply invariant_gets
    | apply invariant_read_table
    | apply invariant_bind
    | apply invariant_try_catch
    | apply invariant_when
    | apply invariant_modify; solve [tac]
    | match goal with
      | |- invariant _ (match ?x with _ => _ end) => destruct x
      end ].

(** ** The cards on the page come from the catalog *)

Lemma category_videos_catalog (videos : Catalog) (category : string)
    (movie : Movie) :
  movie ∈ category_videos videos category → movie ∈ catalog_movies videos.
Proof.
  induction videos as [|[c ms] videos IH]; simpl; [done|].
  rewrite catalog_movies_cons, elem_of_app.
  case_bool_decide; auto.
Qed.

Lemma trendingMovies_catalog (videos : Catalog) (movie : Movie) :
  movie ∈ trendingMovies videos → movie ∈ catalog_movies videos.
Proof.
  unfold trendingMovies. rewrite allMovies_concat, (slice_last _ 9).
  apply subseteq_drop.
Qed.

Lemma favoriteCards_catalog (videos : Catalog) (favs todo : list jsval) :
  Forall (λ card, card_movie card ∈ catalog_movies videos)
         (favoriteCards videos favs todo).
Proof.
  induction todo as [|id todo IH]; simpl; [constructor|].
  destruct (findMovieById videos id) as [movie|] eqn:E; [|done].
  constructor; [|done]. by apply findMovieById_Some in E as [? _].
Qed.

Lemma favorites_region_catalog (videos : Catalog) (favs : list jsval) :
  Forall (λ card, card_movie card ∈ catalog_movies videos)
    (region_cards
       match favs with
       | [] => RFavorites true []
       | _ :: _ => RFavorites false (favoriteCards videos favs favs)
       end).
Proof. destruct favs; [constructor|apply favoriteCards_catalog]. Qed.


Ltac cards_from_step :=
  let H := fresh in
  intros ? [<- H]; split; [reflexivity|]; simpl;
  first
    [ exact H
    | constructor
    | apply favoriteCards_catalog
    | apply Forall_fmap, Forall_forall; intros ? ?; simpl;
      first [ eapply category_videos_catalog; eassumption
            | eapply trendingMovies_catalog; eassumption ]
    | apply favorites_region_catalog ].

Section Startup.
Variable JSON_parse : string → option jsval.

Lemma after_ids_cards_from (V : Catalog) :
  invariant (cards_from V)
    (loadSettings JSON_parse Dynamic;; loadFavorites JSON_parse Dynamic;;
     applySettings Dynamic;;
     btn ← query_homeBtn;
     match btn with Some _ => changeNav Dynamic btn | None => mret tt end).
Proof. invariant_with cards_from_step. Qed.
End Startup.

(** ** Start-up *)

Section StartupIds.
Variable JSON_parse : string → option jsval.


Lemma initializeApp_prefix (vs : option Catalog)
    (ts : option (gmap string jsval)) (st : State) :
  (loadDataFromJSON Dynamic (FetchedData vs ts);; generateVideoIds_step) st
  = (Return tt, loaded_with_ids vs ts st).
Proof. reflexivity. Qed.

Lemma initializeApp_after_prefix (vs : option Catalog)
    (ts : option (gmap string jsval)) (st : State) :
  exec (initializeApp JSON_parse Dynamic (FetchedData vs ts)) st
  = exec (loadSettings JSON_parse Dynamic;;
          loadFavorites JSON_parse Dynamic;;
          applySettings Dynamic;;
          btn ← query_homeBtn;
          match btn with
          | Some _ => changeNav Dynamic btn
          | None => mret tt
          end)
      (loaded_with_ids vs ts st).
Proof.
  unfold initializeApp.
  by erewrite exec_bind_run by apply initializeApp_prefix.
Qed.

Lemma after_ids_generatedIds :
  preserves generatedIds
    (loadSettings JSON_parse Dynamic;; loadFavorites JSON_parse Dynamic;;
     applySettings Dynamic;;
     btn ← query_homeBtn;
     match btn with Some _ => changeNav Dynamic btn | None => mret tt end).
Proof. frame. Qed.
End StartupIds.


(** C4, as the scripts have it.  The later script's [initializeApp],
    once the document is fetched, runs [generateVideoIds] exactly once,
    before the settings, the favorites and the first rendering; when it
    is through, whether the rendering succeeded or not, every movie of
    the catalog carries its category, a dash and its index, and so does
    every card on the page.  (script.js has no such step: there the ids
    are whatever the document holds.) *)
Theorem initializeApp_assigns_ids_once
    (JSON_parse : string → option jsval)
    (vs : option Catalog) (ts : option (gmap string jsval)) (st : State) :
  region_cards (moviesContainer st) = [] →
  let st' := exec (initializeApp JSON_parse Dynamic (FetchedData vs ts)) st in
  videos st' = generateVideoIds (default [] vs)
  ∧ generatedIds st' = S (generatedIds st)
  ∧ (∀ category ms index movie,
       (category, ms) ∈ videos st' → ms !! index = Some movie →
       movie_id movie = Some (video_id category index))
  ∧ Forall (λ card, ∃ category index,
                      movie_id (card_movie card)
                      = Some (video_id category index))
           (region_cards (moviesContainer st')).
Proof.
  intros Hempty st'.
  assert (cards_from (generateVideoIds (default [] vs)) st') as [Hv Hcards].
  { unfold st'. rewrite initializeApp_after_prefix.
    apply after_ids_cards_from. split; [done|].
    simpl. rewrite Hempty. constructor. }
  split; [done|]. split.
  { unfold st'. rewrite initializeApp_after_prefix.
    by rewrite after_ids_generatedIds. }
  split.
  - rewrite Hv. apply generateVideoIds_lookup.
  - eapply Forall_impl; [exact Hcards|]. simpl. intros card Hin.
    destruct (generated_id_key (default [] vs)
                (movie_id (card_movie card))) as (c & i & _ & E).
    + by apply list_elem_of_fmap_2.
    + by exists c, i.
Qed.

Lemma initializeApp_assigns_ids_once_witness :
  movie_id <$>
    catalog_movies
      (videos (exec (initializeApp sample_parse Dynamic
                       (FetchedData (Some example_catalog)
                                    (Some example_translations)))
                 initial_state))
  = [Some "action-0"; Some "action-1"; Some "drama-0"].
Proof.
  destruct (initializeApp_assigns_ids_once sample_parse
              (Some example_catalog) (Some example_translations)
              initial_state eq_refl) as (-> & _).
  reflexivity.
Defined.

(** script.js starts up without assigning any id: the movies of the
    example document are on the page, each still without one. *)
Lemma legacy_startup_assigns_no_id :
  let st' := exec (startup sample_parse Legacy
                     (FetchedData (Some example_catalog)
                                  (Some example_translations)))
               initial_state in
  generatedIds st' = 0
  ∧ movie_id <$> catalog_movies (videos st') = [None; None; None]
  ∧ (λ card, movie_id (card_movie card))
      <$> region_cards (moviesContainer st') = [None; None].
Proof. by vm_compute. Qed.


(** ** Computations that return *)

Section Returns.
Context (J : State → Prop).

Lemma returns_ret {A} (a : A) : returns J (mret a).
Proof. intros st HJ. by exists a, st. Qed.

Lemma returns_gets {A} (g : State → A) : returns J (gets g).
Proof. intros st HJ. by exists (g st), st. Qed.

Lemma returns_modify (g : State → State) :
  (∀ st, J st → J (g st)) → returns J (modify g).
Proof. intros H st HJ. exists tt, (g st). split; [done|by apply H]. Qed.

Lemma returns_bind {A C} (m : M A) (k : A → M C) :
  returns J m → (∀ a, returns J (k a)) → returns J (m ≫= k).
Proof.
  intros Hm Hk st HJ. destruct (Hm st HJ) as (a & st1 & E & HJ1).
  destruct (Hk a st1 HJ1) as (c & st2 & E' & HJ2).
  exists c, st2. split; [|done]. unfold mbind, M_bind. by rewrite E.
Qed.

Lemma returns_when (b : bool) (m : M unit) :
  returns J m → returns J (when b m).
Proof. intros H. destruct b; [done|]. apply returns_ret. Qed.
End Returns.

Lemma get_prop_insert_category (settings : gmap string jsval) (v : jsval) :
  get_prop (<["category" := v]> settings) (JStr "language")
  = get_prop settings (JStr "language").
Proof. unfold get_prop. simpl. by rewrite lookup_insert_ne. Qed.

Lemma returns_read_t : returns table_loaded read_t.
Proof.
  intros st HJ. exists tt, st. split; [|done].
  unfold read_t, read_table, mbind, M_bind, gets. simpl.
  unfold table_loaded in HJ. by rewrite HJ.
Qed.

Ltac table_loaded_step :=
  let H := fresh in
  intros ? H; unfold table_loaded in *; simpl;
  first [exact H | by rewrite get_prop_insert_category].

(** Walks through a rendering function; [read_t] stays folded. *)
Ltac returning :=
  repeat first
    [ progress intros
    | apply returns_ret
    | apply returns_gets
    | apply returns_read_t
    | apply returns_bind
    | apply returns_when
    | apply returns_modify; solve [table_loaded_step]
    | match goal with
      | |- returns _ (match ?x with _ => _ end) => destruct x
      end ].

Section Rendering.
Variable script : Script.

Lemma rerender_active_returns : returns table_loaded (rerender_active script).
Proof.
  unfold rerender_active, showCategory, displayTrending, displayFavorites,
    displayProfileSettings.
  returning.
Qed.

Lemma changeNav_returns (nav : Nav) :
  returns table_loaded (changeNav script (Some nav)).
Proof.
  unfold changeNav, showCategory, displayTrending, displayFavorites,
    displayProfileSettings.
  returning.
Qed.

Lemma applySettings_returns : returns table_loaded (applySettings script).
Proof.
  intros st HJ.
  assert (∃ st1, applyLanguage script
                   (get_prop (currentSettings st) (JStr "language")) st
                 = (Return tt, st1) ∧ table_loaded st1) as (st1 & E & HJ1).
  { unfold applyLanguage, read_table, updateFavoriteButtonState.
    unfold mbind, M_bind, gets, modify, mret, M_ret.
    unfold table_loaded in HJ. rewrite HJ.
    destruct script; simpl; eauto. }
  destruct (rerender_active_returns st1 HJ1) as (a & st2 & E' & HJ2).
  exists a, st2. split; [|done].
  unfold applySettings, mbind, M_bind, gets. simpl.
  unfold mbind, M_bind in E. by rewrite E.
Qed.

Lemma changeNav_activeNav (nav : Nav) (st : State) :
  activeNav (exec (changeNav script (Some nav)) st) = Some nav.
Proof. unfold changeNav. rewrite exec_bind_modify. by framed. Qed.
End Rendering.

(** ** Saving the settings *)

Lemma newSettings_lookup (form : FormValues) :
  newSettings form !! "name" = Some (JStr (form_name form))
  ∧ newSettings form !! "email" = Some (JStr (form_email form))
  ∧ newSettings form !! "theme" = Some (JStr (form_theme form))
  ∧ newSettings form !! "language" = Some (JStr (form_language form)).
Proof. by vm_compute. Qed.

Lemma spread2_lookup_new (old new : gmap string jsval) (key : string)
    (v : jsval) :
  new !! key = Some v → spread2 old new !! key = Some v.
Proof. intros H. unfold spread2. by apply lookup_union_Some_l. Qed.

Section SaveSettings.
Variable JSON_stringify : jsval → string.
Variable script : Script.
Variable form : FormValues.



Lemma saveSettings_refused (st : State) :
  storageWritable st = false →
  exec (saveSettings JSON_stringify script form) st
  = match script with
    | Legacy =>
        set_consoleErrors (consoleErrors st ++ [ErrSettingsSave]) st
    | Dynamic =>
        set_alertModal (Some (mkAlert TitleError MsgSettingsNotSaved)) st
    end.
Proof.
  intros W. unfold exec, saveSettings, try_catch, setItem.
  unfold mbind at 1. unfold M_bind at 1. rewrite W.
  by destruct script.
Qed.

(** Once the write went through, what is observed of the final state is
    observed after [after_saved], as long as the error handler leaves it
    alone. *)
Lemma saveSettings_accepted {B} (f : State → B) (st : State) :
  storageWritable st = true →
  (∀ x st, f (set_alertModal x st) = f st) →
  (∀ x st, f (set_consoleErrors x st) = f st) →
  f (exec (saveSettings JSON_stringify script form) st)
  = f (exec (after_saved script)
         (settings_saved JSON_stringify form st)).
Proof.
  intros W Halert Hconsole. unfold saveSettings.
  rewrite exec_try_catch_framed.
  - erewrite exec_bind_run; [|unfold setItem; by rewrite W].
    by rewrite exec_bind_modify.
  - intros e. destruct script; intros s; [apply Hconsole|apply Halert].
Qed.

Lemma after_saved_home (st : State) :
  table_loaded st → homeBtn st = true →
  activeNav (exec (after_saved script) st) = Some NavHome.
Proof.
  intros HJ Hhome. unfold after_saved.
  destruct (applySettings_returns script st HJ) as ([] & st1 & E & HJ1).
  assert (homeBtn st1 = true) as Hhome1.
  { replace st1 with (exec (applySettings script) st)
      by (unfold exec; by rewrite E).
    by framed. }
  erewrite exec_bind_run by exact E.
  unfold query_homeBtn. rewrite exec_bind_gets, Hhome1.
  rewrite exec_bind_framed by (destruct script; frame).
  apply changeNav_activeNav.
Qed.
End SaveSettings.

(** X28.  When the write to durable storage is refused, [saveSettings]
    leaves the settings in memory, the active tab and storage as they
    were and only reports the failure.  When the write goes through,
    storage holds the submitted settings and the settings in memory take
    the four submitted values; the page then goes back to the home tab,
    given that it has a home button and that the table of the submitted
    language, or the English one, is loaded. *)
Theorem saveSettings_keeps_or_applies
    (JSON_stringify : jsval → string) (script : Script)
    (form : FormValues) (st : State) :
  let st' := exec (saveSettings JSON_stringify script form) st in
  (storageWritable st = false →
     currentSettings st' = currentSettings st
     ∧ activeNav st' = activeNav st
     ∧ localStorage st' = localStorage st
     ∧ st' = match script with
             | Legacy =>
                 set_consoleErrors
                   (consoleErrors st ++ [ErrSettingsSave]) st
             | Dynamic =>
                 set_alertModal
                   (Some (mkAlert TitleError MsgSettingsNotSaved)) st
             end)
  ∧ (storageWritable st = true →
       currentSettings st' !! "name" = Some (JStr (form_name form))
       ∧ currentSettings st' !! "email" = Some (JStr (form_email form))
       ∧ currentSettings st' !! "theme" = Some (JStr (form_theme form))
       ∧ currentSettings st' !! "language"
         = Some (JStr (form_language form))
       ∧ localStorage st' !! "userSettings"
         = Some (JSON_stringify (JObj (newSettings_fields form))))
  ∧ (storageWritable st = true →
     homeBtn st = true →
     nullish (table_for (translations st) (JStr (form_language form)))
     = false →
     activeNav st' = Some NavHome).
Proof.
  intros st'. split_and!.
  - intros W. unfold st'. rewrite saveSettings_refused by done.
    by destruct script.
  - intros W. unfold st'.
    destruct (newSettings_lookup form) as (Hn & He & Ht & Hl).
    split_and!.
    + rewrite (saveSettings_accepted _ _ _ (λ s, currentSettings s !! "name"))
        by done.
      unfold after_saved. framed_by (λ s, currentSettings s !! "name"). by apply spread2_lookup_new.
    + rewrite (saveSettings_accepted _ _ _ (λ s, currentSettings s !! "email"))
        by done.
      unfold after_saved. framed_by (λ s, currentSettings s !! "email"). by apply spread2_lookup_new.
    + rewrite (saveSettings_accepted _ _ _ (λ s, currentSettings s !! "theme"))
        by done.
      unfold after_saved. framed_by (λ s, currentSettings s !! "theme"). by apply spread2_lookup_new.
    + rewrite (saveSettings_accepted _ _ _
                 (λ s, currentSettings s !! "language")) by done.
      unfold after_saved. framed_by (λ s, currentSettings s !! "language"). by apply spread2_lookup_new.
    + rewrite (saveSettings_accepted _ _ _
                 (λ s, localStorage s !! "userSettings")) by done.
      unfold after_saved. framed_by (λ s, localStorage s !! "userSettings").
      simpl. by rewrite lookup_insert_eq.
  - intros W Hhome Htable. unfold st'.
    rewrite (saveSettings_accepted _ _ _ activeNav) by done.
    apply after_saved_home; [|done].
    unfold table_loaded, settings_saved, get_prop. simpl.
    destruct (newSettings_lookup form) as (_ & _ & _ & Hl).
    by rewrite (spread2_lookup_new _ _ _ _ Hl).
Qed.

Lemma saveSettings_keeps_or_applies_witness :
  activeNav (exec (saveSettings sample_stringify Dynamic example_form)
               example_state)
  = Some NavHome
  ∧ currentSettings
      (exec (saveSettings sample_stringify Dynamic example_form)
         example_state_storage_full)
    = defaultSettings.
Proof.
  destruct (saveSettings_keeps_or_applies sample_stringify Dynamic
              example_form example_state) as (_ & _ & Hhome).
  destruct (saveSettings_keeps_or_applies sample_stringify Dynamic
              example_form example_state_storage_full) as (Hkeep & _).
  split.
  - apply Hhome; by vm_compute.
  - by destruct (Hkeep eq_refl) as (-> & _).
Defined.

(** C8.  The page on the profile tab with a table for Myanmar only, and
    English chosen in the form: the write goes through and the settings
    in memory take the submitted language, but the rendering throws
    inside the [try] block, so the failure branch runs and the tab stays
    on profile, in both scripts. *)
Theorem saveSettings_stays_on_profile_without_table :
  let st := example_state_myanmar_only in
  let legacy := exec (saveSettings sample_stringify Legacy example_form) st in
  let later := exec (saveSettings sample_stringify Dynamic example_form) st in
  storageWritable st = true
  ∧ homeBtn st = true
  ∧ activeNav st = Some NavProfile
  ∧ is_Some (localStorage legacy !! "userSettings")
  ∧ currentSettings legacy !! "language" = Some (JStr "english")
  ∧ activeNav legacy = Some NavProfile
  ∧ consoleErrors legacy = [ErrSettingsSave]
  ∧ is_Some (localStorage later !! "userSettings")
  ∧ currentSettings later !! "language" = Some (JStr "english")
  ∧ activeNav later = Some NavProfile
  ∧ alertModal later = Some (mkAlert TitleError MsgSettingsNotSaved).
Proof. vm_compute. split_and!; by eauto. Qed.

(** ** More on the generated ids *)

Lemma elem_of_catalog_movies (videos : Catalog) (movie : Movie) :
  movie ∈ catalog_movies videos ↔
  ∃ category ms, (category, ms) ∈ videos ∧ movie ∈ ms.
Proof.
  unfold catalog_movies. rewrite list_elem_of_join. split.
  - intros (ms & Hin & [[c ms'] [-> Hentry]]%list_elem_of_fmap).
    by exists c, ms'.
  - intros (c & ms & Hentry & Hin). exists ms. split; [done|].
    apply list_elem_of_fmap. by exists (c, ms).
Qed.

Lemma elem_of_generated (videos : Catalog) (movie : Movie) :
  movie ∈ catalog_movies (generateVideoIds videos) ↔
  ∃ category ms index raw,
    (category, ms) ∈ videos ∧ ms !! index = Some raw
    ∧ movie = set_id raw (video_id category index).
Proof.
  rewrite elem_of_catalog_movies. unfold generateVideoIds. split.
  - intros (c & ms & [[c0 ms0] [E Hentry]]%list_elem_of_fmap & Hin).
    simpl in E. injection E as -> ->.
    apply elem_of_lookup_imap in Hin as (i & raw & -> & Hlook).
    by exists c0, ms0, i, raw.
  - intros (c & ms & i & raw & Hentry & Hlook & ->).
    exists c, (imap (λ index movie, set_id movie (video_id c index)) ms).
    split.
    + apply list_elem_of_fmap. by exists (c, ms).
    + by apply (elem_of_lookup_imap_2
                  (λ index movie, set_id movie (video_id c index))).
Qed.

Lemma keys_functional {A} (l : list (string * A)) (key : string) (x y : A) :
  NoDup l.*1 → (key, x) ∈ l → (key, y) ∈ l → x = y.
Proof.
  induction l as [|[k z] l IH]; simpl; [by intros _ ?%elem_of_nil|].
  intros [Hk Hl]%NoDup_cons Hx Hy.
  apply elem_of_cons in Hx as [Hx|Hx], Hy as [Hy|Hy].
  - congruence.
  - injection Hx as -> ->. destruct Hk.
    apply list_elem_of_fmap. by exists (k, y).
  - injection Hy as -> ->. destruct Hk.
    apply list_elem_of_fmap. by exists (k, x).
  - by apply IH.
Qed.

Lemma find_is_Some {A} (p : A → bool) (l : list A) (x : A) :
  x ∈ l → p x = true → is_Some (List.find p l).
Proof.
  intros Hin Hp. destruct (List.find p l) eqn:E; [by eexists|].
  apply list_elem_of_In in Hin.
  pose proof (List.find_none p l E x Hin). congruence.
Qed.

Lemma findMovieById_is_Some (videos : Catalog) (movie : Movie) :
  movie ∈ catalog_movies videos →
  is_Some (findMovieById videos (id_of movie)).
Proof.
  induction videos as [|[c ms] videos IH]; simpl.
  - by intros ?%elem_of_nil.
  - rewrite catalog_movies_cons, elem_of_app.
    destruct (List.find _ ms) as [m|] eqn:E; [by eexists|].
    intros [Hin|Hin]; [|by apply IH].
    destruct (find_is_Some (λ m, strict_eq (id_of m) (id_of movie))
                ms movie Hin) as [m Hm].
    + apply strict_eq_refl, id_of_primitive.
    + congruence.
Qed.

(** X1.  Looking up a generated id finds the movie at that position. *)
Theorem findMovieById_generated_id (videos : Catalog) (category : string)
    (ms : list Movie) (index : nat) (raw : Movie) :
  NoDup videos.*1 →
  (category, ms) ∈ videos →
  ms !! index = Some raw →
  findMovieById (generateVideoIds videos) (JStr (video_id category index))
  = Some (set_id raw (video_id category index)).
Proof.
  intros Hkeys Hentry Hlook.
  assert (set_id raw (video_id category index)
          ∈ catalog_movies (generateVideoIds videos)) as Hin.
  { apply elem_of_generated. by exists category, ms, index, raw. }
  destruct (findMovieById_is_Some _ _ Hin) as [found Hfound].
  change (id_of (set_id raw (video_id category index)))
    with (JStr (video_id category index)) in Hfound.
  rewrite Hfound. f_equal.
  apply findMovieById_Some in Hfound as [Hin' Hid].
  apply elem_of_generated in Hin' as (c & ms' & i & raw' & He & Hl & ->).
  injection Hid as Hid. apply video_id_inj in Hid as [-> ->].
  rewrite (keys_functional _ _ _ _ Hkeys He Hentry) in Hl.
  congruence.
Qed.

Lemma findMovieById_generated_id_witness :
  findMovieById (generateVideoIds example_catalog) (JStr (video_id "action" 1))
  = Some (set_id (raw_movie "B") (video_id "action" 1)).
Proof.
  apply (findMovieById_generated_id example_catalog "action"
           [raw_movie "A"; raw_movie "B"] 1 (raw_movie "B")).
  - apply NoDup_cons. split; [|apply NoDup_singleton].
    by intros [=]%list_elem_of_singleton.
  - by left.
  - reflexivity.
Defined.

(** X2.  After the ids are generated, [findMovieById] finds a movie only
    for an id that [generateVideoIds] wrote, and the movie it finds is
    the one at the position the id names. *)
Theorem findMovieById_only_generated_ids (videos : Catalog) (id : jsval)
    (movie : Movie) :
  findMovieById (generateVideoIds videos) id = Some movie →
  ∃ category ms index raw,
    (category, ms) ∈ videos ∧ ms !! index = Some raw
    ∧ id = JStr (video_id category index)
    ∧ movie = set_id raw (video_id category index).
Proof.
  intros [Hin Hid]%findMovieById_Some.
  apply elem_of_generated in Hin as (c & ms & i & raw & He & Hl & ->).
  exists c, ms, i, raw. by rewrite <- Hid.
Qed.

Lemma findMovieById_only_generated_ids_witness :
  ∃ category ms index raw,
    (category, ms) ∈ example_catalog ∧ ms !! index = Some raw
    ∧ JStr "drama-0" = JStr (video_id category index)
    ∧ set_id (raw_movie "C") "drama-0"
      = set_id raw (video_id category index).
Proof.
  apply (findMovieById_only_generated_ids example_catalog). reflexivity.
Defined.

Lemma set_id_set_id (m : Movie) (a b : string) :
  set_id (set_id m a) b = set_id m b.
Proof. reflexivity. Qed.

Lemma imap_imap {A B C} (f : nat → B → C) (g : nat → A → B) (l : list A) :
  imap f (imap g l) = imap (λ i x, f i (g i x)) l.
Proof.
  revert f g. induction l as [|x l IH]; intros f g; [done|].
  rewrite !imap_cons. f_equal. apply IH.
Qed.

(** X3.  Running [generateVideoIds] again changes nothing. *)
Theorem generateVideoIds_idempotent (videos : Catalog) :
  generateVideoIds (generateVideoIds videos) = generateVideoIds videos.
Proof.
  unfold generateVideoIds. rewrite <- list_fmap_compose.
  apply list_fmap_ext. intros _ [c ms] _. simpl. f_equal.
  rewrite imap_imap. by apply imap_ext.
Qed.

(** X4.  [generateVideoIds] writes ids and nothing else: the categories,
    their order, the number of movies in each and every other property of
    every movie stay. *)
Theorem generateVideoIds_keeps_the_rest (videos : Catalog) :
  (generateVideoIds videos).*1 = videos.*1
  ∧ (λ entry, length entry.2) <$> generateVideoIds videos
    = (λ entry, length entry.2) <$> videos
  ∧ (λ m, (movie_title m, movie_thumb m, movie_src m, movie_type m))
      <$> catalog_movies (generateVideoIds videos)
    = (λ m, (movie_title m, movie_thumb m, movie_src m, movie_type m))
        <$> catalog_movies videos.
Proof.
  split; [apply generateVideoIds_keys|]. split.
  - unfold generateVideoIds. rewrite <- list_fmap_compose.
    apply list_fmap_ext. intros _ [c ms] _. simpl. apply length_imap.
  - induction videos as [|[c ms] videos IH]; [done|].
    change (generateVideoIds ((c, ms) :: videos))
      with ((c, imap (λ index movie, set_id movie (video_id c index)) ms)
            :: generateVideoIds videos).
    rewrite !catalog_movies_cons, !fmap_app, IH. f_equal.
    apply list_eq. intros i.
    rewrite !list_lookup_fmap, list_lookup_imap.
    by destruct (ms !! i).
Qed.

(** ** Settings and favorites across page loads *)

Lemma loadSettings_run (JSON_parse : string → option jsval)
    (script : Script) (st : State) :
  outcome (loadSettings JSON_parse script) st = Return tt
  ∧ currentSettings (exec (loadSettings JSON_parse script) st)
    = match localStorage st !! "userSettings" with
      | Some text =>
          if truthy_text text then
            match JSON_parse text with
            | Some parsed => spread2 defaultSettings (own_props parsed)
            | None => defaultSettings
            end
          else defaultSettings
      | None => defaultSettings
      end.
Proof.
  unfold loadSettings, getItem, outcome, exec, parse.
  unfold mbind, M_bind, gets, try_catch, modify, throw. simpl.
  destruct (localStorage st !! "userSettings") as [text|]; simpl; [|done].
  destruct (truthy_text text); simpl; [|done].
  destruct (JSON_parse text) as [parsed|]; simpl; [done|].
  by destruct script.
Qed.

Lemma truthy_text_true (text : string) : text ≠ "" → truthy_text text = true.
Proof. intros H. unfold truthy_text. by rewrite bool_decide_eq_false_2. Qed.

(** X5.  Loading the settings never throws and forgets what was in memory:
    a missing key, an empty text and a text that is not JSON give exactly
    the defaults, and a parsed value is laid over the defaults property by
    property. *)
Theorem loadSettings_overlays_defaults
    (JSON_parse : string → option jsval) (script : Script) (st : State) :
  let st' := exec (loadSettings JSON_parse script) st in
  let stored := localStorage st !! "userSettings" in
  outcome (loadSettings JSON_parse script) st = Return tt
  ∧ (stored = None ∨ stored = Some "" → currentSettings st' = defaultSettings)
  ∧ (∀ text, stored = Some text → JSON_parse text = None →
       currentSettings st' = defaultSettings)
  ∧ (∀ text parsed key,
       stored = Some text → text ≠ "" → JSON_parse text = Some parsed →
       currentSettings st' !! key
       = match own_props parsed !! key with
         | Some v => Some v
         | None => defaultSettings !! key
         end).
Proof.
  intros st' stored.
  destruct (loadSettings_run JSON_parse script st) as [Hout Hcs].
  fold st' in Hcs. fold stored in Hcs.
  split; [done|]. split_and!.
  - intros [E|E]; by rewrite Hcs, E.
  - intros text E Hp. rewrite Hcs, E, Hp. by destruct (truthy_text text).
  - intros text parsed key E Hne Hp.
    rewrite Hcs, E, Hp, truthy_text_true by done.
    unfold spread2. rewrite lookup_union.
    destruct (own_props parsed !! key), (defaultSettings !! key); done.
Qed.

Lemma loadSettings_overlays_defaults_witness :
  currentSettings
    (exec (loadSettings sample_parse Legacy)
       (set_localStorage {[ "userSettings" := "not json" ]} example_state))
  = defaultSettings
  ∧ currentSettings
      (exec (loadSettings sample_parse Legacy)
         (set_localStorage {[ "userSettings" := "7" ]} example_state))
    !! "theme" = Some (JStr "dark").
Proof.
  split.
  - destruct (loadSettings_overlays_defaults sample_parse Legacy
                (set_localStorage {[ "userSettings" := "not json" ]}
                   example_state)) as (_ & _ & Hbad & _).
    by apply (Hbad "not json").
  - destruct (loadSettings_overlays_defaults sample_parse Legacy
                (set_localStorage {[ "userSettings" := "7" ]}
                   example_state)) as (_ & _ & _ & Hparsed).
    by rewrite (Hparsed "7" (JNum 7) "theme").
Defined.

Lemma newSettings_covers_defaults (form : FormValues) :
  spread2 defaultSettings (newSettings form) = newSettings form.
Proof.
  apply map_eq. intros key. unfold spread2. rewrite lookup_union.
  destruct (newSettings_lookup form) as (Hn & He & Ht & Hl).
  destruct (decide (key = "name")) as [->|?]; [by rewrite Hn|].
  destruct (decide (key = "email")) as [->|?]; [by rewrite He|].
  destruct (decide (key = "theme")) as [->|?]; [by rewrite Ht|].
  destruct (decide (key = "language")) as [->|?]; [by rewrite Hl|].
  assert (defaultSettings !! key = None) as ->.
  { unfold defaultSettings.
    rewrite !lookup_insert_ne by done. by apply lookup_singleton_ne. }
  by destruct (newSettings form !! key).
Qed.

(** X6.  Settings that were saved come back at the next start: after an
    accepted [saveSettings], loading the settings again gives exactly the
    four submitted values, whatever else was in memory. *)
Theorem saveSettings_then_loadSettings
    (JSON_parse : string → option jsval) (JSON_stringify : jsval → string)
    (script : Script) (form : FormValues) (st : State) :
  storageWritable st = true →
  JSON_stringify (JObj (newSettings_fields form)) ≠ "" →
  JSON_parse (JSON_stringify (JObj (newSettings_fields form)))
  = Some (JObj (newSettings_fields form)) →
  currentSettings
    (exec (loadSettings JSON_parse script)
       (exec (saveSettings JSON_stringify script form) st))
  = newSettings form.
Proof.
  intros W Hne Hround.
  destruct (loadSettings_run JSON_parse script
              (exec (saveSettings JSON_stringify script form) st))
    as [_ ->].
  rewrite (saveSettings_accepted _ _ _
             (λ s, localStorage s !! "userSettings")) by done.
  unfold after_saved.
  framed_by (λ s : State, localStorage s !! "userSettings").
  simpl. rewrite lookup_insert_eq, truthy_text_true, Hround by done.
  apply newSettings_covers_defaults.
Qed.

Lemma saveSettings_then_loadSettings_witness :
  currentSettings
    (exec (loadSettings echo_parse Dynamic)
       (exec (saveSettings echo_stringify Dynamic example_form)
          example_state))
  = newSettings example_form.
Proof.
  by apply (saveSettings_then_loadSettings echo_parse echo_stringify
              Dynamic example_form example_state).
Defined.

(** X7.  Favorites that were toggled come back at the next start: after
    a [toggleFavorite] whose write was accepted, loading the favorites
    again gives the list that was in memory. *)
Theorem toggleFavorite_then_loadFavorites
    (JSON_parse : string → option jsval) (JSON_stringify : jsval → string)
    (script : Script) (st : State) (movie : Movie) :
  currentPlayingMovie st = Some movie →
  storageWritable st = true →
  let st1 := exec (toggleFavorite JSON_stringify script) st in
  JSON_stringify (JArr (favorites st1)) ≠ "" →
  JSON_parse (JSON_stringify (JArr (favorites st1)))
  = Some (JArr (favorites st1)) →
  favorites (exec (loadFavorites JSON_parse script) st1) = favorites st1.
Proof.
  intros Hplay W st1 Hne Hround.
  destruct (loadFavorites_run JSON_parse script st1) as [_ ->].
  assert (localStorage st1 !! "favorites"
          = Some (JSON_stringify (JArr (favorites st1)))) as ->.
  { unfold st1.
    rewrite (toggleFavorite_storage _ _ _ _ Hplay), W, lookup_insert_eq.
    by rewrite (toggleFavorite_favorites _ _ _ _ Hplay). }
  by rewrite truthy_text_true, Hround.
Qed.

Lemma toggleFavorite_then_loadFavorites_witness :
  favorites
    (exec (loadFavorites echo_parse Dynamic)
       (exec (toggleFavorite echo_stringify Dynamic) example_state))
  = [JStr "action-0"].
Proof.
  by apply (toggleFavorite_then_loadFavorites echo_parse echo_stringify
              Dynamic example_state example_movie).
Defined.

(** ** The user id *)

(** X8.  The user id is generated once: when none is stored and the write
    is accepted, the generated id is stored, and the next start reads it
    back instead of the id it would generate, leaving storage alone. *)
Theorem initUserId_generated_once (uuid1 uuid2 : string) (st : State) :
  localStorage st !! "localUserId" = None →
  storageWritable st = true →
  uuid1 ≠ "" →
  let st1 := exec (initUserId uuid1) st in
  outcome (initUserId uuid1) st = Return uuid1
  ∧ localStorage st1 !! "localUserId" = Some uuid1
  ∧ initUserId uuid2 st1 = (Return uuid1, st1).
Proof.
  intros Hnone W Hne st1. unfold st1, initUserId, getItem, setItem, exec,
    outcome. unfold mbind, M_bind, gets, mret, M_ret. simpl.
  rewrite Hnone, W. simpl. rewrite lookup_insert_eq.
  by rewrite truthy_text_true.
Qed.

Lemma initUserId_generated_once_witness :
  initUserId "second" (exec (initUserId "first") example_state)
  = (Return "first", exec (initUserId "first") example_state).
Proof.
  by apply (initUserId_generated_once "first" "second" example_state).
Defined.

(** X9.  A stored id is never overwritten, not even an empty one: with
    the empty text stored every start takes a newly generated id and
    stores nothing, so the id changes from start to start. *)
Theorem initUserId_never_overwrites (uuid : string) (st : State)
    (text : string) :
  localStorage st !! "localUserId" = Some text →
  initUserId uuid st = (Return (if truthy_text text then text else uuid), st)
  ∧ (text = "" → outcome (initUserId uuid) st = Return uuid).
Proof.
  intros Hsome. unfold initUserId, getItem, outcome.
  unfold mbind, M_bind, gets, mret, M_ret. simpl. rewrite Hsome.
  split; [done|]. by intros ->.
Qed.

Lemma initUserId_never_overwrites_witness :
  initUserId "fresh" (set_localStorage {[ "localUserId" := "" ]} example_state)
  = (Return "fresh",
     set_localStorage {[ "localUserId" := "" ]} example_state).
Proof.
  by apply (initUserId_never_overwrites "fresh"
              (set_localStorage {[ "localUserId" := "" ]} example_state) "").
Defined.

(** ** Navigation *)

(** X10.  [changeNav] always ends on the tab of the button it was given,
    even when the rendering of that tab throws; the player is hidden on
    the profile tab only and the category menu is shown on the home tab
    only. *)
Theorem changeNav_sets_tab (script : Script) (nav : Nav) (st : State) :
  let st' := exec (changeNav script (Some nav)) st in
  activeNav st' = Some nav
  ∧ playerHidden st' = bool_decide (nav = NavProfile)
  ∧ menuBarHidden st' = negb (bool_decide (nav = NavHome)).
Proof.
  intros st'. split; [apply changeNav_activeNav|].
  unfold st', changeNav. rewrite !exec_bind_modify.
  destruct nav; rewrite !exec_bind_modify; split; by framed.
Qed.

(** X11.  Navigating and choosing a category are read-only on the data:
    neither changes the favorites, durable storage, the selected movie,
    the catalog or the translation tables. *)
Theorem navigation_changes_no_data (script : Script) (btn : option Nav)
    (category : string) (clickedButton : option string) (st : State) :
  let st1 := exec (changeNav script btn) st in
  let st2 := exec (showCategory script category clickedButton) st in
  (favorites st1 = favorites st ∧ localStorage st1 = localStorage st
   ∧ currentPlayingMovie st1 = currentPlayingMovie st
   ∧ videos st1 = videos st ∧ translations st1 = translations st)
  ∧ (favorites st2 = favorites st ∧ localStorage st2 = localStorage st
     ∧ currentPlayingMovie st2 = currentPlayingMovie st
     ∧ videos st2 = videos st ∧ translations st2 = translations st).
Proof.
  intros st1 st2. unfold st1, st2. split; split_and!; by framed.
Qed.

Lemma showCategory_run (script : Script) (category : string)
    (clickedButton : option string) (st : State) :
  table_loaded st →
  outcome (showCategory script category clickedButton) st = Return tt
  ∧ moviesContainer (exec (showCategory script category clickedButton) st)
    = RCategory category
        (createMovieCard (favorites st)
           <$> category_videos (videos st) category)
  ∧ activeCategory (exec (showCategory script category clickedButton) st)
    = clickedButton.
Proof.
  unfold table_loaded. intros Hloaded.
  unfold showCategory, read_t, read_table, outcome, exec.
  unfold mbind, M_bind, gets, modify, mret, M_ret.
  destruct script; simpl; rewrite ?get_prop_insert_category, Hloaded; done.
Qed.

Lemma category_videos_lookup (videos : Catalog) (category : string)
    (ms : list Movie) :
  NoDup videos.*1 → (category, ms) ∈ videos →
  category_videos videos category = ms.
Proof.
  induction videos as [|[c ms'] videos IH]; simpl.
  - by intros _ ?%elem_of_nil.
  - intros [Hc Hrest]%NoDup_cons Hin. case_bool_decide as Hkey.
    + subst c. apply elem_of_cons in Hin as [[= ->]|Hin]; [done|].
      destruct Hc. apply list_elem_of_fmap. by exists (category, ms).
    + apply elem_of_cons in Hin as [[= -> ->]|Hin]; [done|]. by apply IH.
Qed.

Lemma category_videos_missing (videos : Catalog) (category : string) :
  category ∉ videos.*1 → category_videos videos category = [].
Proof.
  induction videos as [|[c ms] videos IH]; simpl; [done|].
  intros Hnot. case_bool_decide as Hkey.
  - subst c. destruct Hnot. by left.
  - apply IH. intros Hin. apply Hnot. by right.
Qed.

(** X12.  For a category that is a key of the catalog, or that is not
    the name of a member of [Object.prototype], and with the table of the
    current language loaded, [showCategory] shows the movies of the
    category in the catalog's order, each with a heart exactly when its
    id is a favorite, and highlights the clicked button; for such a
    category that the catalog does not have it shows the empty category
    and does not fail. *)
Theorem showCategory_shows_the_category (script : Script)
    (category : string) (clickedButton : option string) (st : State) :
  NoDup (videos st).*1 →
  table_loaded st →
  category ∈ (videos st).*1 ∨ object_prototype_member category = false →
  let st' := exec (showCategory script category clickedButton) st in
  let cards := region_cards (moviesContainer st') in
  outcome (showCategory script category clickedButton) st = Return tt
  ∧ activeCategory st' = clickedButton
  ∧ (∀ ms, (category, ms) ∈ videos st → card_movie <$> cards = ms)
  ∧ (category ∉ (videos st).*1 → moviesContainer st' = RCategory category [])
  ∧ Forall (λ card, card_isFav card
                    = includes (favorites st) (id_of (card_movie card)))
           cards.
Proof.
  intros Hkeys Hloaded _ st' cards.
  destruct (showCategory_run script category clickedButton st Hloaded)
    as (Hout & Hregion & Hactive).
  unfold cards, st'. rewrite Hregion. simpl. split_and!; [done|done| | |].
  - intros ms Hin. rewrite (category_videos_lookup _ _ _ Hkeys Hin).
    rewrite <- list_fmap_compose. apply list_fmap_id.
  - intros Hnot. by rewrite category_videos_missing.
  - by apply Forall_fmap, Forall_true.
Qed.

Lemma showCategory_shows_the_category_witness :
  card_movie
    <$> region_cards
          (moviesContainer (exec (showCategory Legacy "drama" (Some "drama"))
                              example_state))
  = [set_id (raw_movie "C") "drama-0"]
  ∧ moviesContainer (exec (showCategory Legacy "horror" None) example_state)
    = RCategory "horror" [].
Proof.
  assert (NoDup (videos example_state).*1) as Hkeys.
  { apply NoDup_cons. split; [|apply NoDup_singleton].
    by intros [=]%list_elem_of_singleton. }
  assert (table_loaded example_state) as Hloaded by by vm_compute.
  split.
  - destruct (showCategory_shows_the_category Legacy "drama" (Some "drama")
                example_state Hkeys Hloaded) as (_ & _ & Hms & _).
    + left. right. by left.
    + apply Hms. right. by left.
  - destruct (showCategory_shows_the_category Legacy "horror" None
                example_state Hkeys Hloaded) as (_ & _ & _ & Hmissing & _).
    + by right.
    + apply Hmissing. vm_compute.
      intros Hin. repeat (apply elem_of_cons in Hin as [[=]|Hin]).
      by apply elem_of_nil in Hin.
Defined.



(** ** Rendering without a translation table *)

(** X14.  When neither the table of the current language nor the
    English one is loaded (and the language names no member of
    [Object.prototype]), going to the trending, favorites or profile tab
    throws a [TypeError]; the tab is highlighted all the same and the
    list is left empty. *)
Theorem changeNav_without_table (script : Script) (nav : Nav) (st : State) :
  ¬ table_loaded st →
  object_prototype_member
    (to_string (get_prop (currentSettings st) (JStr "language"))) = false →
  nav ≠ NavHome →
  let st' := exec (changeNav script (Some nav)) st in
  outcome (changeNav script (Some nav)) st = Throw TypeError
  ∧ activeNav st' = Some nav
  ∧ moviesContainer st' = RCleared.
Proof.
  unfold table_loaded. intros Hnot%not_false_is_true _ Hnav.
  unfold changeNav, displayTrending, displayFavorites,
    displayProfileSettings, read_t, read_table, outcome, exec.
  unfold mbind, M_bind, gets, modify.
  destruct nav; [done| | |]; simpl; by rewrite Hnot.
Qed.

Lemma changeNav_without_table_witness :
  outcome (changeNav Dynamic (Some NavFavorites)) initial_state
  = Throw TypeError.
Proof.
  apply (changeNav_without_table Dynamic NavFavorites initial_state).
  - by vm_compute.
  - by vm_compute.
  - done.
Defined.

(** ** Selecting a movie *)

(** X15.  [playVideo] with an id that a movie carries selects the movie
    that [findMovieById] finds and points the player at its source,
    and this happens even if the title cannot be rendered; with the table
    loaded it returns normally and the favorite button shows whether the
    id is a favorite.  Favorites and storage are not touched. *)
Theorem playVideo_selects (script : Script) (movieId : jsval)
    (movie : Movie) (st : State) :
  findMovieById (videos st) movieId = Some movie →
  let st' := exec (playVideo script movieId) st in
  currentPlayingMovie st' = Some movie
  ∧ id_of movie = movieId
  ∧ player_src <$> playing st' = Some (movie_src movie)
  ∧ favorites st' = favorites st
  ∧ localStorage st' = localStorage st
  ∧ (table_loaded st →
       outcome (playVideo script movieId) st = Return tt
       ∧ (truthy movieId = true →
            favoriteBtn st' = Some (includes (favorites st) movieId))).
Proof.
  intros Hfound st'.
  pose proof (findMovieById_Some _ _ _ Hfound) as [_ Hid].
  split_and!; [| done | | | |].
  - unfold st', playVideo, find_movie.
    rewrite exec_bind_gets, Hfound, exec_bind_modify. by framed.
  - unfold st', playVideo, find_movie.
    rewrite exec_bind_gets, Hfound, !exec_bind_modify. framed.
    simpl. destruct script; [|done]. by case_bool_decide.
  - unfold st'. by framed.
  - unfold st'. by framed.
  - unfold table_loaded. intros Hloaded.
    unfold st', playVideo, find_movie, read_t, read_table,
      updateFavoriteButtonState, outcome, exec.
    unfold mbind, M_bind, gets, modify, when. simpl.
    rewrite Hfound. simpl. rewrite Hloaded, Hid.
    destruct script; simpl.
    + split; [by destruct (truthy movieId)|]. intros ->. done.
    + split; [done|]. intros ->. done.
Qed.

Lemma playVideo_selects_witness :
  currentPlayingMovie
    (exec (playVideo Dynamic (JStr "action-1")) example_state)
  = Some (set_id (raw_movie "B") "action-1").
Proof.
  by apply (playVideo_selects Dynamic (JStr "action-1")
              (set_id (raw_movie "B") "action-1") example_state).
Defined.

(** X16.  Starting a movie and then pressing the favorite button toggles
    that movie's id: with no id stored twice, its membership in the
    favorites is flipped, whether or not the texts could be rendered. *)
Theorem playVideo_then_toggleFavorite
    (JSON_stringify : jsval → string) (script : Script)
    (movieId : jsval) (movie : Movie) (st : State) :
  findMovieById (videos st) movieId = Some movie →
  NoDup (favorites st) →
  let st1 := exec (playVideo script movieId) st in
  let st2 := exec (toggleFavorite JSON_stringify script) st1 in
  favorites st2 = toggled script (favorites st) movieId
  ∧ includes (favorites st2) movieId = negb (includes (favorites st) movieId).
Proof.
  intros Hfound Hnd st1 st2.
  pose proof (findMovieById_Some _ _ _ Hfound) as [_ Hid].
  assert (currentPlayingMovie st1 = Some movie) as Hplay.
  { unfold st1, playVideo, find_movie.
    rewrite exec_bind_gets, Hfound, exec_bind_modify. by framed. }
  assert (favorites st1 = favorites st) as Hfav by (unfold st1; by framed).
  assert (favorites st2 = toggled script (favorites st) movieId) as E.
  { unfold st2. rewrite (toggleFavorite_favorites _ _ _ _ Hplay).
    by rewrite Hfav, Hid. }
  split; [done|]. rewrite E. apply toggled_flips; [|done].
  rewrite <- Hid. apply id_of_primitive.
Qed.

Lemma playVideo_then_toggleFavorite_witness :
  favorites
    (exec (toggleFavorite sample_stringify Legacy)
       (exec (playVideo Legacy (JStr "drama-0")) example_state))
  = [JStr "drama-0"].
Proof.
  assert (NoDup (favorites example_state)) as Hnd by constructor.
  by destruct (playVideo_then_toggleFavorite sample_stringify Legacy
                 (JStr "drama-0") (set_id (raw_movie "C") "drama-0")
                 example_state eq_refl Hnd) as [-> _].
Defined.

(** ** The two scripts' toggles *)

Lemma toggled_scripts_agree (favs : list jsval) (movie : Movie) :
  NoDup favs →
  toggled Legacy favs (id_of movie) = toggled Dynamic favs (id_of movie).
Proof.
  intros Hnd. pose proof (id_of_primitive movie) as Hp.
  destruct (includes favs (id_of movie)) eqn:Hin.
  - destruct (toggled_present Legacy _ _ Hp Hnd Hin) as (b & a & E & -> & _).
    destruct (toggled_present Dynamic _ _ Hp Hnd Hin)
      as (b' & a' & E' & -> & Hout).
    rewrite E in E'. rewrite E in Hnd.
    assert (includes b (id_of movie) = false) as Hb.
    { apply includes_false; [done|].
      apply NoDup_app in Hnd as (_ & Hdisj & _).
      intros Hin'. apply (Hdisj _ Hin'). by left. }
    rewrite includes_app in Hout. apply orb_false_iff in Hout as [Hb' _].
    clear E Hin Hnd. revert b' E' Hb'.
    induction b as [|x b IH]; intros [|y b'] E' Hb'; simpl in *.
    + by injection E' as ->.
    + injection E' as <- _. by rewrite strict_eq_refl in Hb'.
    + injection E' as -> _. by rewrite strict_eq_refl in Hb.
    + injection E' as -> E'.
      apply orb_false_iff in Hb as [_ Hb], Hb' as [_ Hb'].
      by rewrite (IH Hb b' E' Hb').
  - by rewrite !toggled_absent.
Qed.

(** X17.  With a movie selected and no id stored twice, the two scripts'
    [toggleFavorite] leave the same favorites. *)
Theorem toggleFavorite_scripts_agree
    (JSON_stringify : jsval → string) (st : State) (movie : Movie) :
  currentPlayingMovie st = Some movie →
  NoDup (favorites st) →
  favorites (exec (toggleFavorite JSON_stringify Legacy) st)
  = favorites (exec (toggleFavorite JSON_stringify Dynamic) st).
Proof.
  intros Hplay Hnd.
  rewrite !(toggleFavorite_favorites _ _ _ _ Hplay).
  by apply toggled_scripts_agree.
Qed.

Lemma toggleFavorite_scripts_agree_witness :
  favorites (exec (toggleFavorite sample_stringify Legacy)
               example_state_with_favorites)
  = favorites (exec (toggleFavorite sample_stringify Dynamic)
                 example_state_with_favorites).
Proof.
  apply (toggleFavorite_scripts_agree sample_stringify
           example_state_with_favorites example_movie eq_refl).
  apply NoDup_cons. split; [|apply NoDup_singleton].
  by intros [=]%list_elem_of_singleton.
Defined.

Lemma filter_twice {A} (f : A → bool) (l : list A) :
  List.filter f (List.filter f l) = List.filter f l.
Proof.
  induction l as [|x l IH]; [done|]. simpl.
  destruct (f x) eqn:E; simpl; [|done]. by rewrite E, IH.
Qed.

Lemma toggled_legacy_flips_any_list (favs : list jsval) (movie : Movie) :
  let movieId := id_of movie in
  includes (toggled Legacy favs movieId) movieId
  = negb (includes favs movieId)
  ∧ List.filter (λ id, negb (strict_eq id movieId))
      (toggled Legacy favs movieId)
    = List.filter (λ id, negb (strict_eq id movieId)) favs.
Proof.
  intros movieId. pose proof (id_of_primitive movie) as Hp.
  fold movieId in Hp. unfold toggled, push.
  destruct (includes favs movieId) eqn:Hin; simpl.
  - split.
    + apply includes_false; [done|]. intros Hmem%list_elem_of_In.
      apply List.filter_In in Hmem as [_ Hne].
      by rewrite strict_eq_refl in Hne.
    + apply filter_twice.
  - split.
    + rewrite includes_app, Hin. simpl. by rewrite strict_eq_refl.
    + rewrite filter_app_bool. simpl. rewrite strict_eq_refl by done.
      simpl. by rewrite app_nil_r.
Qed.

(** X18.  In script.js [toggleFavorite] is a strict toggle on every list,
    also one that stores an id several times: it flips the membership of
    the selected movie's id and keeps the other entries in their order. *)
Theorem toggleFavorite_legacy_flips_any_list
    (JSON_stringify : jsval → string) (st : State) (movie : Movie) :
  currentPlayingMovie st = Some movie →
  let movieId := id_of movie in
  let st' := exec (toggleFavorite JSON_stringify Legacy) st in
  includes (favorites st') movieId = negb (includes (favorites st) movieId)
  ∧ List.filter (λ id, negb (strict_eq id movieId)) (favorites st')
    = List.filter (λ id, negb (strict_eq id movieId)) (favorites st).
Proof.
  intros Hplay movieId st'. unfold st'.
  rewrite (toggleFavorite_favorites _ _ _ _ Hplay).
  apply toggled_legacy_flips_any_list.
Qed.

Lemma toggleFavorite_legacy_flips_any_list_witness :
  includes
    (favorites
       (exec (toggleFavorite sample_stringify Legacy)
          (set_favorites [JStr "action-0"; JStr "b"; JStr "action-0"]
             example_state)))
    (id_of example_movie)
  = negb
      (includes [JStr "action-0"; JStr "b"; JStr "action-0"]
         (id_of example_movie)).
Proof.
  apply (toggleFavorite_legacy_flips_any_list sample_stringify
           (set_favorites [JStr "action-0"; JStr "b"; JStr "action-0"]
              example_state) example_movie eq_refl).
Defined.

Lemma toggled_dynamic_removes_first (favs : list jsval) (movie : Movie) :
  let movieId := id_of movie in
  includes favs movieId = true →
  ∃ before after,
    favs = before ++ movieId :: after
    ∧ includes before movieId = false
    ∧ toggled Dynamic favs movieId = before ++ after
    ∧ includes (toggled Dynamic favs movieId) movieId
      = includes after movieId.
Proof.
  intros movieId Hin. unfold toggled.
  destruct (indexOf favs movieId) as [index|] eqn:Hi;
    [|apply indexOf_none in Hi; congruence].
  destruct (indexOf_some _ _ _ Hi) as (b & a & -> & Hb & ->).
  exists b, a. split_and!; [done|done|done|].
  by rewrite includes_app, Hb.
Qed.

(** X19.  The later script's [toggleFavorite] takes out one entry only,
    the first that equals the selected movie's id: when the id is stored
    more than once it is still a favorite after the call. *)
Theorem toggleFavorite_dynamic_removes_first
    (JSON_stringify : jsval → string) (st : State) (movie : Movie) :
  currentPlayingMovie st = Some movie →
  let movieId := id_of movie in
  let st' := exec (toggleFavorite JSON_stringify Dynamic) st in
  includes (favorites st) movieId = true →
  ∃ before after,
    favorites st = before ++ movieId :: after
    ∧ includes before movieId = false
    ∧ favorites st' = before ++ after
    ∧ includes (favorites st') movieId = includes after movieId.
Proof.
  intros Hplay movieId st' Hin. unfold st'.
  rewrite (toggleFavorite_favorites _ _ _ _ Hplay).
  by apply toggled_dynamic_removes_first.
Qed.

Lemma toggleFavorite_dynamic_removes_first_witness :
  ∃ before after,
    [JStr "action-0"; JStr "b"; JStr "action-0"]
    = before ++ JStr "action-0" :: after
    ∧ includes before (JStr "action-0") = false
    ∧ favorites
        (exec (toggleFavorite sample_stringify Dynamic)
           (set_favorites [JStr "action-0"; JStr "b"; JStr "action-0"]
              example_state))
      = before ++ after
    ∧ includes
        (favorites
           (exec (toggleFavorite sample_stringify Dynamic)
              (set_favorites [JStr "action-0"; JStr "b"; JStr "action-0"]
                 example_state)))
        (JStr "action-0")
      = includes after (JStr "action-0").
Proof.
  by apply (toggleFavorite_dynamic_removes_first sample_stringify
              (set_favorites [JStr "action-0"; JStr "b"; JStr "action-0"]
                 example_state) example_movie eq_refl).
Defined.

(** ** Settings and favorites do not interfere *)

(** X20.  [toggleFavorite] leaves the settings alone, in memory and in
    storage, and [saveSettings] leaves the favorites alone, in memory and
    in storage, as well as the selected movie. *)
Theorem settings_and_favorites_independent
    (JSON_stringify : jsval → string) (script : Script)
    (form : FormValues) (st : State) :
  let st1 := exec (toggleFavorite JSON_stringify script) st in
  let st2 := exec (saveSettings JSON_stringify script form) st in
  currentSettings st1 = currentSettings st
  ∧ localStorage st1 !! "userSettings" = localStorage st !! "userSettings"
  ∧ favorites st2 = favorites st
  ∧ localStorage st2 !! "favorites" = localStorage st !! "favorites"
  ∧ currentPlayingMovie st2 = currentPlayingMovie st.
Proof.
  intros st1 st2. unfold st1, st2. split_and!.
  - by framed.
  - by framed_by (λ s : State, localStorage s !! "userSettings").
  - by framed.
  - by framed_by (λ s : State, localStorage s !! "favorites").
  - by framed.
Qed.

(** ** Stepping through a handler *)

Lemma run_bind_gets {A C} (g : State → A) (k : A → M C) (st : State) :
  (gets g ≫= k) st = k (g st) st.
Proof. reflexivity. Qed.

Lemma run_bind_modify {C} (g : State → State) (k : unit → M C) (st : State) :
  (modify g ≫= k) st = k tt (g st).
Proof. reflexivity. Qed.

Lemma run_bind_ret {A C} (a : A) (k : A → M C) (st : State) :
  (mret a ≫= k) st = k a st.
Proof. reflexivity. Qed.

Lemma run_bind {A C} (m : M A) (k : A → M C) (st st1 : State) (a : A) :
  m st = (Return a, st1) → (m ≫= k) st = k a st1.
Proof. unfold mbind, M_bind. by intros ->. Qed.



Lemma updateFavoriteButtonState_run (script : Script) (movieId : jsval)
    (explicitState : option bool) (st : State) :
  ∃ drawn,
    updateFavoriteButtonState script movieId explicitState st
    = (Return tt, set_favoriteBtn drawn st).
Proof.
  unfold updateFavoriteButtonState, when, modify.
  destruct script; [|by eexists].
  destruct (truthy movieId); [by eexists|].
  exists (favoriteBtn st). by destruct st.
Qed.

(** ** The favorite toggle and the list on the page *)

Section ToggleAndPage.
Variable JSON_stringify : jsval → string.
Variable script : Script.

(** With a movie selected, [toggleFavorite] comes to its last step, the
    refresh of the favorites tab, in a state that differs from the one
    it started in by the new list, the write, the drawn button and the
    alert. *)
Lemma toggleFavorite_selected (st : State) (movie : Movie) :
  currentPlayingMovie st = Some movie →
  ∃ mid,
    toggleFavorite JSON_stringify script st
    = (nav ← gets activeNav;
       when (bool_decide (nav = Some NavFavorites)) displayFavorites;;
       mret JUndefined) mid
    ∧ favorites mid = toggled script (favorites st) (id_of movie)
    ∧ videos mid = videos st
    ∧ translations mid = translations st
    ∧ currentSettings mid = currentSettings st
    ∧ activeNav mid = activeNav st
    ∧ moviesContainer mid = moviesContainer st.
Proof.
  intros Hplay. unfold toggleFavorite.
  rewrite run_bind_gets, Hplay, run_bind_gets, run_bind_modify.
  destruct script; cbv beta iota.
  - rewrite run_bind_ret.
    erewrite run_bind by apply saveFavoritesToLocalStorage_run.
    edestruct (updateFavoriteButtonState_run Legacy) as [drawn Hdrawn].
    erewrite run_bind by exact Hdrawn.
    eexists. split; [reflexivity|].
    simpl. by destruct (storageWritable st).
  - unfold showCustomAlert at 1. rewrite run_bind_modify.
    erewrite run_bind by apply saveFavoritesToLocalStorage_run.
    edestruct (updateFavoriteButtonState_run Dynamic) as [drawn Hdrawn].
    erewrite run_bind by exact Hdrawn.
    eexists. split; [reflexivity|].
    simpl. by destruct (storageWritable st).
Qed.
End ToggleAndPage.

(** X21.  On the favorites tab a toggle refreshes the list: with the
    table loaded, the cards afterwards are those of the new favorites
    that resolve to a movie, in the list's order, so the movie that was
    just removed is gone and one that was just added is there. *)
Theorem toggleFavorite_refreshes_favorites_tab
    (JSON_stringify : jsval → string) (script : Script)
    (st : State) (movie : Movie) :
  currentPlayingMovie st = Some movie →
  activeNav st = Some NavFavorites →
  table_loaded st →
  let st' := exec (toggleFavorite JSON_stringify script) st in
  outcome (toggleFavorite JSON_stringify script) st = Return JUndefined
  ∧ favorites st' = toggled script (favorites st) (id_of movie)
  ∧ (λ card, id_of (card_movie card))
      <$> region_cards (moviesContainer st')
    = filter (λ id, is_Some (findMovieById (videos st) id)) (favorites st').
Proof.
  intros Hplay Hnav Hloaded st'.
  destruct (toggleFavorite_selected JSON_stringify script st movie Hplay)
    as (mid & Hrun & Hfav & Hvid & Htr & Hcs & Hnav' & _).
  assert (table_loaded mid) as Hloaded'
    by (unfold table_loaded; by rewrite Htr, Hcs).
  unfold st', outcome, exec. rewrite Hrun, run_bind_gets, Hnav', Hnav.
  rewrite bool_decide_eq_true_2 by done. unfold when.
  erewrite run_bind by (apply displayFavorites_run; exact Hloaded').
  simpl. split; [done|]. split; [done|].
  rewrite <- Hvid.
  destruct (favorites mid) eqn:E; [done|]. rewrite <- E. simpl.
  apply favoriteCards_ids.
Qed.

Lemma toggleFavorite_refreshes_favorites_tab_witness :
  (λ card, id_of (card_movie card))
    <$> region_cards
          (moviesContainer
             (exec (toggleFavorite sample_stringify Dynamic)
                (set_activeNav (Some NavFavorites) example_state)))
  = [JStr "action-0"].
Proof.
  destruct (toggleFavorite_refreshes_favorites_tab sample_stringify Dynamic
              (set_activeNav (Some NavFavorites) example_state) example_movie
              eq_refl eq_refl) as (_ & _ & ->); by vm_compute.
Defined.

(** X22.  On any other tab a toggle does not touch the list on the page:
    the cards stay as they were drawn, hearts included, until the tab is
    rendered again. *)
Theorem toggleFavorite_leaves_other_tabs
    (JSON_stringify : jsval → string) (script : Script)
    (st : State) (movie : Movie) :
  currentPlayingMovie st = Some movie →
  activeNav st ≠ Some NavFavorites →
  let st' := exec (toggleFavorite JSON_stringify script) st in
  outcome (toggleFavorite JSON_stringify script) st = Return JUndefined
  ∧ moviesContainer st' = moviesContainer st.
Proof.
  intros Hplay Hnav st'.
  destruct (toggleFavorite_selected JSON_stringify script st movie Hplay)
    as (mid & Hrun & _ & _ & _ & _ & Hnav' & Hregion).
  unfold st', outcome, exec. rewrite Hrun, run_bind_gets, Hnav'.
  rewrite bool_decide_eq_false_2 by done. by simpl.
Qed.

Lemma toggleFavorite_leaves_other_tabs_witness :
  card_isFav
    <$> region_cards
          (moviesContainer
             (exec (toggleFavorite sample_stringify Dynamic)
                (exec (changeNav Dynamic (Some NavTrending)) example_state)))
  = [false; false; false].
Proof.
  destruct (toggleFavorite_leaves_other_tabs sample_stringify Dynamic
              (exec (changeNav Dynamic (Some NavTrending)) example_state)
              example_movie eq_refl) as [_ ->]; by vm_compute.
Defined.

(** ** What holds after any sequence of events *)

Section Commands.
Variable JSON_stringify : jsval → string.
Variable script : Script.

Lemma handle_keeps_catalog (cmd : Command) :
  preserves videos (handle JSON_stringify script cmd)
  ∧ preserves translations (handle JSON_stringify script cmd)
  ∧ preserves generatedIds (handle JSON_stringify script cmd).
Proof. unfold handle. split_and!; frame. Qed.

Lemma toggleFavorite_idle_favorites (st : State) :
  currentPlayingMovie st = None →
  favorites (exec (toggleFavorite JSON_stringify script) st) = favorites st.
Proof.
  intros Hnone. unfold toggleFavorite. rewrite exec_bind_gets, Hnone.
  by framed.
Qed.

Lemma handle_keeps_NoDup (cmd : Command) (st : State) :
  NoDup (favorites st) →
  NoDup (favorites (exec (handle JSON_stringify script cmd) st)).
Proof.
  intros Hnd. destruct cmd; unfold handle; try (by framed).
  rewrite exec_bind_framed by (intros; apply preserves_ret).
  destruct (currentPlayingMovie st) as [movie|] eqn:Hplay.
  - rewrite (toggleFavorite_favorites _ _ _ _ Hplay).
    apply toggled_NoDup; [apply id_of_primitive|done].
  - by rewrite toggleFavorite_idle_favorites.
Qed.

Lemma handle_keeps_selection (cmd : Command) (st : State) :
  selection_from_catalog st →
  selection_from_catalog (exec (handle JSON_stringify script cmd) st).
Proof.
  intros Hsel. unfold selection_from_catalog in *.
  destruct (handle_keeps_catalog cmd) as (Hvideos & _).
  rewrite (Hvideos st).
  destruct cmd; unfold handle; try (by framed).
  unfold playVideo, find_movie. rewrite exec_bind_gets.
  destruct (findMovieById (videos st) (JStr movieId)) as [movie|] eqn:E.
  - rewrite exec_bind_modify. framed. simpl.
    by apply findMovieById_Some in E as [? _].
  - by framed.
Qed.

Lemma invariant_setItem (J : State → Prop) (key value : string) :
  (∀ x st, J st → J (set_localStorage x st)) →
  invariant J (setItem key value).
Proof.
  intros H st HJ. unfold exec, setItem.
  destruct (storageWritable st); simpl; [by apply H|done].
Qed.

Lemma handle_keeps_tab (cmd : Command) :
  invariant (λ st, is_Some (activeNav st)) (handle JSON_stringify script cmd).
Proof.
  unfold handle.
  invariant_with ltac:(intros ? ?; simpl; first [assumption | by eexists]).
  all: apply invariant_setItem; intros ? ? ?; simpl; assumption.
Qed.
End Commands.

(** X23.  No handler changes the catalog or the translation tables: after
    any sequence of events they are what the start-up left, and
    [generateVideoIds] has not run again. *)
Theorem commands_keep_catalog (JSON_stringify : jsval → string)
    (script : Script) (cmds : list Command) (st : State) :
  let st' := run_commands JSON_stringify script cmds st in
  videos st' = videos st
  ∧ translations st' = translations st
  ∧ generatedIds st' = generatedIds st.
Proof.
  revert st. induction cmds as [|cmd cmds IH]; intros st; simpl; [done|].
  destruct (handle_keeps_catalog JSON_stringify script cmd) as (Hv & Ht & Hg).
  destruct (IH (exec (handle JSON_stringify script cmd) st)) as (-> & -> & ->).
  by rewrite (Hv st), (Ht st), (Hg st).
Qed.

(** X24.  The favorites stay free of duplicates: if no id is stored twice,
    none is stored twice after any sequence of events. *)
Theorem commands_keep_favorites_NoDup (JSON_stringify : jsval → string)
    (script : Script) (cmds : list Command) (st : State) :
  NoDup (favorites st) →
  NoDup (favorites (run_commands JSON_stringify script cmds st)).
Proof.
  revert st. induction cmds as [|cmd cmds IH]; intros st Hnd; simpl; [done|].
  by apply IH, handle_keeps_NoDup.
Qed.

Lemma commands_keep_favorites_NoDup_witness :
  NoDup
    (favorites
       (run_commands sample_stringify Dynamic
          [CmdPlayVideo "drama-0"; CmdToggleFavorite;
           CmdChangeNav NavFavorites; CmdPlayVideo "action-1";
           CmdToggleFavorite; CmdToggleFavorite]
          example_state)).
Proof.
  apply commands_keep_favorites_NoDup. constructor.
Defined.

(** X25.  The selected movie is always one of the catalog: if that is so
    (or none is selected), it is so after any sequence of events. *)
Theorem commands_keep_selection_in_catalog
    (JSON_stringify : jsval → string) (script : Script)
    (cmds : list Command) (st : State) :
  selection_from_catalog st →
  selection_from_catalog (run_commands JSON_stringify script cmds st).
Proof.
  revert st. induction cmds as [|cmd cmds IH]; intros st Hsel; simpl; [done|].
  by apply IH, handle_keeps_selection.
Qed.

Lemma commands_keep_selection_in_catalog_witness :
  selection_from_catalog
    (run_commands sample_stringify Legacy
       [CmdPlayVideo "drama-0"; CmdPlayVideo "gone-3"; CmdToggleFavorite]
       (set_currentPlayingMovie None example_state)).
Proof.
  by apply commands_keep_selection_in_catalog.
Defined.

(** X26.  Once a tab is highlighted, some tab is highlighted after any
    sequence of events, also after handlers that threw. *)
Theorem commands_keep_a_tab (JSON_stringify : jsval → string)
    (script : Script) (cmds : list Command) (st : State) :
  is_Some (activeNav st) →
  is_Some (activeNav (run_commands JSON_stringify script cmds st)).
Proof.
  revert st. induction cmds as [|cmd cmds IH]; intros st Htab; simpl; [done|].
  by apply IH, handle_keeps_tab.
Qed.

Lemma commands_keep_a_tab_witness :
  is_Some
    (activeNav
       (run_commands sample_stringify Dynamic
          [CmdSaveSettings example_form; CmdChangeNav NavProfile]
          (set_activeNav (Some NavTrending) initial_state))).
Proof.
  apply commands_keep_a_tab. by eexists.
Defined.

(** ** Start-up without the document *)




(** X30.  script.js's start-up assigns no id: after a fetched document
    the catalog is the document's, every movie with the id it was given
    there or none, and [generateVideoIds] has not run. *)
Theorem legacy_startup_keeps_document (JSON_parse : string → option jsval)
    (vs : option Catalog) (ts : option (gmap string jsval)) (st : State) :
  let st' := exec (startup JSON_parse Legacy (FetchedData vs ts)) st in
  videos st' = default [] vs
  ∧ translations st' = default ∅ ts
  ∧ generatedIds st' = generatedIds st.
Proof.
  intros st'. unfold st', startup.
  erewrite exec_bind_run by reflexivity.
  split_and!; by framed.
Qed.
